(** * clustershell_client.c: the node agent of the cluster shell

    A shallow embedding of [assignment-1/problem-2/clustershell_client.c]:
    the C strings and library calls it relies on, the header encoder
    [get_header_str], the execution engine [execute_on_current_node], one
    turn of [shell_handler] and of [request_handler], and the signal that
    ties the two processes together. *)

From Stdlib Require Import List ZArith Lia Ascii Bool Arith.
From Stdlib Require String.
Import String.StringSyntax.
Delimit Scope string_scope with string.
From Equations Require Import Equations.
Import ListNotations.

Local Open Scope Z_scope.

(** ** Bytes and C strings *)

Module CStr.

(** A [char] is a byte. *)
Abbreviation byte := ascii.

Definition NUL : byte := Ascii.zero.
Definition LF : byte := "010"%char.      (* '\n' *)
Definition ESC : byte := "027"%char.     (* '\033' *)

(** String literals of the source, without their terminator. *)
Definition lit (s : String.string) : list byte :=
  String.list_ascii_of_string s.
Arguments lit s%_string.

(** Buffers are lists of bytes; the C string a [char*] denotes is what
    precedes the first NUL of the buffer. *)
Fixpoint cstr (buf : list byte) : list byte :=
  match buf with
  | [] => []
  | b :: rest => if Ascii.eqb b NUL then [] else b :: cstr rest
  end.

Definition strlen (buf : list byte) : nat := length (cstr buf).

(** [strcmp(a, b) == 0] *)
Definition streq (a b : list byte) : bool :=
  if list_eq_dec ascii_dec (cstr a) (cstr b) then true else false.

Definition nul_free (l : list byte) : Prop := Forall (fun b => b <> NUL) l.

(** [isspace] and [isdigit] of the C locale. *)
Definition isspace (c : byte) : bool :=
  let n := nat_of_ascii c in
  (Nat.eqb n 32 || (Nat.leb 9 n && Nat.leb n 13))%bool.

Definition isdigit (c : byte) : bool :=
  let n := nat_of_ascii c in (Nat.leb 48 n && Nat.leb n 57)%bool.

Definition digit_val (c : byte) : Z := Z.of_nat (nat_of_ascii c) - 48.

Definition digit_char (d : Z) : byte := ascii_of_nat (Z.to_nat (48 + d)).

(** [atoi]: leading white space, an optional sign, then decimal digits up
    to the first byte that is not one (the terminator included). *)
Fixpoint atoi_digits (acc : Z) (s : list byte) : Z :=
  match s with
  | [] => acc
  | c :: rest => if isdigit c then atoi_digits (10 * acc + digit_val c) rest
                 else acc
  end.

Definition atoi_signed (s : list byte) : Z :=
  match s with
  | "-"%char :: rest => - atoi_digits 0 rest
  | "+"%char :: rest => atoi_digits 0 rest
  | _ => atoi_digits 0 s
  end.

Fixpoint atoi (s : list byte) : Z :=
  match s with
  | [] => 0
  | c :: rest => if isspace c then atoi rest else atoi_signed s
  end.

(** The number of binary digits of a number: the measure by which the
    loops over decimal digits below terminate. *)
Definition bits (z : Z) : nat := Z.to_nat (Z.log2 (2 * Z.abs z)).

Lemma abs_quot_10 (s : Z) : Z.abs (Z.quot s 10) = Z.abs s / 10.
Proof.
  rewrite <- Z.quot_abs by lia. change (Z.abs 10) with 10.
  apply Z.quot_div_nonneg; lia.
Qed.

Lemma bits_quot_10 (s : Z) : s <> 0 -> (bits (Z.quot s 10) < bits s)%nat.
Proof.
  intros Hs. unfold bits. rewrite abs_quot_10.
  assert (Ha : 0 < Z.abs s) by lia.
  generalize dependent (Z.abs s). intros a Ha.
  assert (Hq : 0 <= a / 10) by (apply Z.div_pos; lia).
  assert (Hm : 10 * (a / 10) <= a) by (apply Z.mul_div_le; lia).
  assert (Hl : Z.log2 (2 * (a / 10)) <= Z.log2 a)
    by (apply Z.log2_le_mono; lia).
  rewrite (Z.log2_double a) by lia.
  pose proof (Z.log2_nonneg (2 * (a / 10))).
  lia.
Qed.

(** The digits [sprintf] prints for a non-negative number under [%d]. *)
Equations? dec_digits (n : Z) : list byte by wf (bits n) lt :=
  dec_digits n with Z_lt_dec n 10 := {
    | left _ => [digit_char n]
    | right _ => dec_digits (n / 10) ++ [digit_char (n mod 10)] }.
Proof.
  rewrite <- Z.quot_div_nonneg by lia. apply bits_quot_10. lia.
Qed.

(** [%d] *)
Definition print_int (n : Z) : list byte :=
  if n <? 0 then "-"%char :: dec_digits (- n) else dec_digits n.

End CStr.
Import CStr.

(** ** The machine the agent runs on *)

(** [int] is 32 bits wide; a wider count converted to it wraps around. *)
Definition INT_MAX : Z := 2147483647.

Definition to_int (z : Z) : Z := (z + 2 ^ 31) mod 2 ^ 32 - 2 ^ 31.

(** [size_t] is 64 bits wide and unsigned. *)
Definition to_size_t (z : Z) : Z := z mod 2 ^ 64.

(** What a process does that the outside can see, in order. *)
Inductive event : Type :=
| Print (text : list byte)        (* printf *)
| Perror (tag : list byte)        (* perror *)
| Kill (target : Z)               (* kill(target, SIGUSR1) *)
| Sent (bytes : list byte)        (* bytes a write put on the connection *)
| PipeWrite (bytes : list byte)   (* bytes written to p[1] *)
| PipeCloseWrite                  (* close(p[1]) *)
| Dup2Stdin                       (* dup2(p[0], 0) *)
| Popen (command : list byte)     (* popen(command, "r") *)
| Fgets (chunk : list byte)       (* a chunk fgets took from the command *)
| PipeCloseRead                   (* close(p[0]) *)
| Pclose.

(** One end of a TCP connection.  [inbound] is what is still to arrive, in
    the pieces read will see: a read takes at most one piece, a piece longer
    than the request is split, an exhausted list is the end of the stream.
    [accepts] scripts the next writes: one fails with -1, takes a count of
    bytes, or finds the peer gone and raises SIGPIPE; once the script is
    used up a write takes everything. *)
Inductive arrival : Type :=
| Data (bytes : list byte)
| ReadFailure.

Inductive write_result : Type :=
| WriteFailure
| Takes (count : nat)
| BrokenPipe.    (* the peer is gone: the write raises SIGPIPE *)

Record socket : Type := mkSocket {
  inbound : list arrival;
  accepts : list write_result
}.

(** What the operating system decides. *)
Record os : Type := mkOs {
  (* the directory chdir(path) leaves the process in, none when it fails *)
  chdir_to : list byte -> list byte -> option (list byte);
  (* the standard output of [sh -c command] run in a directory on that
     standard input; none when popen cannot start it *)
  spawn : list byte -> list byte -> list byte -> option (list byte);
  (* how many bytes a pipe holds while nobody reads it *)
  pipe_capacity : Z;
  (* whether realloc grants a block of that size *)
  grants : Z -> bool;
  (* what a fresh malloc block happens to contain *)
  junk : nat -> byte
}.

(** The state of one of the two processes. *)
Record proc : Type := mkProc {
  pid : Z;                 (* getpid() *)
  ppid : Z;                (* getppid() *)
  child_pid : Z;           (* the global of that name *)
  cwd : list byte;         (* current working directory *)
  conn : socket;           (* serv_fd, or the serv_sock being served *)
  trace : list event       (* oldest first *)
}.

(** How a call ends: it returns, the process exits, it runs into behaviour
    C leaves undefined, or it blocks for ever. *)
Inductive outcome (A : Type) : Type :=
| Ret (a : A)
| Exit (status : Z)
| Undefined
| Blocked
| Killed.
Arguments Ret {A} a.
Arguments Exit {A} status.
Arguments Undefined {A}.
Arguments Blocked {A}.
Arguments Killed {A}.

Definition M (A : Type) : Type := proc -> outcome A * proc.

Definition ret {A} (a : A) : M A := fun p => (Ret a, p).

Definition bind {A B} (m : M A) (f : A -> M B) : M B :=
  fun p =>
    match m p with
    | (Ret a, p') => f a p'
    | (Exit s, p') => (Exit s, p')
    | (Undefined, p') => (Undefined, p')
    | (Blocked, p') => (Blocked, p')
    | (Killed, p') => (Killed, p')
    end.

Notation "x <- m ;; k" := (bind m (fun x => k))
  (at level 61, m at next level, right associativity).
Notation "m ;; k" := (bind m (fun _ => k))
  (at level 61, right associativity).

Definition exit {A} (status : Z) : M A := fun p => (Exit status, p).
Definition undefined {A} : M A := fun p => (Undefined, p).
Definition blocked {A} : M A := fun p => (Blocked, p).

(** A signal the program has no handler for and does not ignore ends the
    process where it stands: [main] installs a handler for SIGUSR1 only. *)
Definition killed {A} : M A := fun p => (Killed, p).

(** The process with one of its parts replaced. *)
Definition with_trace (p : proc) (events : list event) : proc :=
  mkProc (pid p) (ppid p) (child_pid p) (cwd p) (conn p) events.

Definition with_cwd (p : proc) (d : list byte) : proc :=
  mkProc (pid p) (ppid p) (child_pid p) d (conn p) (trace p).

Definition with_conn (p : proc) (s : socket) : proc :=
  mkProc (pid p) (ppid p) (child_pid p) (cwd p) s (trace p).

Definition with_inbound (p : proc) (arrivals : list arrival) : proc :=
  with_conn p (mkSocket arrivals (accepts (conn p))).

Definition emit (e : event) : M unit :=
  fun p => (Ret tt, with_trace p (trace p ++ [e])).

Definition printf (text : list byte) : M unit := emit (Print text).
Definition perror (tag : list byte) : M unit := emit (Perror tag).
Definition kill (target : Z) : M unit := emit (Kill target).

Definition getpid : M Z := fun p => (Ret (pid p), p).
Definition getppid : M Z := fun p => (Ret (ppid p), p).
Definition get_child_pid : M Z := fun p => (Ret (child_pid p), p).
Definition getcwd : M (list byte) := fun p => (Ret (cwd p), p).

Definition set_cwd (d : list byte) : M unit :=
  fun p => (Ret tt, with_cwd p d).

Definition set_conn (s : socket) : M unit :=
  fun p => (Ret tt, with_conn p s).

(** [malloc(n)]: a block of [n] bytes holding whatever was there. *)
Definition malloc (o : os) (n : nat) : list byte := map (junk o) (seq 0 n).

(** [buf[i] = b] *)
Fixpoint poke (buf : list byte) (i : nat) (b : byte) : list byte :=
  match buf, i with
  | [], _ => []
  | _ :: rest, O => b :: rest
  | c :: rest, S j => c :: poke rest j b
  end.

(** The block after [data] was stored at its start. *)
Definition store (buf data : list byte) : list byte :=
  data ++ skipn (length data) buf.

(** [read(fd, buf, n)] on the connection: what it stored, none for -1. *)
Definition read (n : nat) : M (option (list byte)) :=
  fun p =>
    match n, inbound (conn p) with
    | O, _ => ret (Some []) p
    | _, [] => ret (Some []) p
    | _, ReadFailure :: later =>
        (set_conn (mkSocket later (accepts (conn p))) ;; ret None) p
    | _, Data bytes :: later =>
        let rest := match skipn n bytes with
                    | [] => later
                    | more => Data more :: later
                    end in
        (set_conn (mkSocket rest (accepts (conn p))) ;;
         ret (Some (firstn n bytes))) p
    end.

(** [write(fd, msg, strlen(msg))] on the connection: the count returned.
    SIGPIPE is neither ignored nor handled by the program, so a write to a
    connection the peer has closed does not return. *)
Definition write (msg : list byte) : M Z :=
  fun p =>
    match accepts (conn p) with
    | [] => (emit (Sent msg) ;; ret (Z.of_nat (length msg))) p
    | WriteFailure :: later =>
        (set_conn (mkSocket (inbound (conn p)) later) ;; ret (-1)) p
    | Takes k :: later =>
        (set_conn (mkSocket (inbound (conn p)) later) ;;
         emit (Sent (firstn k msg)) ;;
         ret (Z.of_nat (length (firstn k msg)))) p
    | BrokenPipe :: later =>
        (set_conn (mkSocket (inbound (conn p)) later) ;; killed) p
    end.

(** ** [sigusr1_handler] and [get_header_str] *)

Definition HEADER_SIZE : Z := 6.

(** [void sigusr1_handler(int signum) { exit(1); }] *)
Definition sigusr1_handler : M unit := exit 1.

(** [while (s != 0) { s = s/10; num_length++; }] *)
Equations? count_digits (s : Z) (num_length : Z) : Z by wf (bits s) lt :=
  count_digits s num_length with Z.eq_dec s 0 := {
    | left _ => num_length
    | right _ => count_digits (Z.quot s 10) (num_length + 1) }.
Proof.
  apply bits_quot_10. assumption.
Qed.

Definition num_length_of (size : Z) : Z :=
  let num_length := count_digits size 0 in
  if size =? 0 then 1 else num_length.

(** [sprintf(header_str, "%s%s%d", co, zeroes, size)]: the string that is
    printed.  The block the source allocates for it has [num_length + 2]
    bytes, fewer than the seven that are written when the length has less
    than five digits; the model keeps the string, not the block. *)
Definition header_str (co : list byte) (size : Z) : list byte :=
  let num_length := num_length_of size in
  let zeroes := repeat "0"%char (Z.to_nat (HEADER_SIZE - num_length - 1)) in
  cstr co ++ cstr (zeroes ++ [NUL]) ++ print_int size.

Definition get_header_str (co : list byte) (size : Z) : M (list byte) :=
  let num_length := num_length_of size in
  if HEADER_SIZE - 1 <? num_length then
    printf (lit "output is too long, exiting." ++ [LF]) ;;
    me <- getpid ;;
    child <- get_child_pid ;;
    (if me =? child then parent <- getppid ;; kill parent else kill child) ;;
    exit 1
  else ret (header_str co size).

(** The inline decoding of a header both handlers use: the tag is
    [hdr[0]], the length [atoi(hdr+1)]. *)
Definition header_tag (hdr : list byte) : byte := nth 0 hdr NUL.
Definition header_size (hdr : list byte) : Z := atoi (skipn 1 hdr).

(** ** [execute_on_current_node] *)

(** [fgets(tmp_buffer, size, f)]: at most [size - 1] bytes, through the
    first newline; none at the end of the stream. *)
Fixpoint fgets_take (k : nat) (stream : list byte) : list byte * list byte :=
  match k, stream with
  | O, _ => ([], stream)
  | _, [] => ([], [])
  | S k', c :: rest =>
      if Ascii.eqb c LF then ([c], rest)
      else let (line, rest') := fgets_take k' rest in (c :: line, rest')
  end.

Definition fgets (size : nat) (stream : list byte)
  : option (list byte * list byte) :=
  match stream with
  | [] => None
  | _ => Some (fgets_take (size - 1) stream)
  end.

Lemma fgets_take_shorter (k : nat) (stream : list byte) :
  (length (snd (fgets_take k stream)) <= length stream)%nat /\
  (k <> O -> stream <> [] ->
   length (snd (fgets_take k stream)) < length stream)%nat.
Proof.
  revert stream. induction k as [|k IH]; intros [|c rest]; simpl;
    try (split; [lia | congruence]).
  destruct (Ascii.eqb c LF); simpl; [split; lia|].
  specialize (IH rest). destruct (fgets_take k rest) as [line rest'].
  simpl in *. split; lia.
Qed.

Lemma fgets_shorter (size : nat) (stream line rest : list byte) :
  (1 < size)%nat -> fgets size stream = Some (line, rest) ->
  (length rest < length stream)%nat.
Proof.
  intros Hsize E. destruct stream as [|c stream']; [discriminate|].
  unfold fgets in E. injection E as E.
  pose proof (fgets_take_shorter (size - 1) (c :: stream')) as [_ H].
  rewrite E in H. apply H; [lia | discriminate].
Qed.

Arguments fgets : simpl never.

Definition inspect {A : Type} (a : A) : {b : A | a = b} := exist _ a eq_refl.

(** [realloc(block, n)]: the old bytes, then whatever was there. *)
Definition realloc (o : os) (old : option (list byte)) (n : nat) : list byte :=
  match old with
  | None => malloc o n
  | Some block => firstn n (block ++ malloc o n)
  end.

(** [strcpy(block + at, src)] *)
Definition strcpy_at (block : list byte) (at_ : nat) (src : list byte)
  : list byte :=
  firstn at_ block ++ cstr src ++ [NUL] ++
  skipn (at_ + strlen src + 1) block.

(** The loop that gathers the command's output:
[[
    while (fgets(tmp_buffer, sizeof(tmp_buffer), cmd_output_f) != NULL) {
        output = realloc(output, curr_size + strlen(tmp_buffer));
        if (output == NULL) { ...; kill(getppid(), SIGUSR1); exit(1); }
        strcpy(output + curr_size - 1, tmp_buffer);
        curr_size += strlen(tmp_buffer);
    }
]]
    [stream] is what the command still has to say.  The size asked of
    [realloc] is computed in [size_t], the new [curr_size] is brought back
    to [int]; a [curr_size] that has wrapped below 1 makes the target of
    [strcpy] lie before the block. *)
Equations? read_output (o : os) (stream : list byte)
    (output : option (list byte)) (curr_size : Z)
  : M (option (list byte)) by wf (length stream) lt :=
  read_output o stream output curr_size with inspect (fgets 200 stream) := {
    | exist _ None _ => ret output
    | exist _ (Some (line, rest)) _ =>
        let tmp_buffer := line ++ [NUL] in
        let request := to_size_t (curr_size + Z.of_nat (strlen tmp_buffer)) in
        emit (Fgets line) ;;
        if grants o request then
          if curr_size - 1 <? 0 then undefined
          else
            let block := realloc o output (Z.to_nat request) in
            let block :=
              strcpy_at block (Z.to_nat (curr_size - 1)) tmp_buffer in
            read_output o rest (Some block)
              (to_int (curr_size + Z.of_nat (strlen tmp_buffer)))
        else
          printf (lit "Memory allocation  error. Exiting. " ++ [LF]) ;;
          parent <- getppid ;; kill parent ;; exit 1 }.
Proof.
  eapply fgets_shorter; [|eassumption]. lia.
Qed.

(** [command[0] == 'c' && command[1] == 'd' && command[2] == ' '] *)
Definition is_cd (command : list byte) : bool :=
  (Ascii.eqb (nth 0 command NUL) "c" &&
   Ascii.eqb (nth 1 command NUL) "d" &&
   Ascii.eqb (nth 2 command NUL) " ")%bool.

(** The branch for [cd]: [chdir(command + 3)], then an empty string. *)
Definition change_directory (o : os) (command : list byte)
  : M (option (list byte)) :=
  here <- getcwd ;;
  match chdir_to o here (cstr (skipn 3 command)) with
  | Some there => set_cwd there
  | None =>
      perror (lit "chdir") ;;
      printf (lit "Couldn't change directory." ++ [LF])
  end ;;
  ret (Some (strcpy_at (malloc o 1) 0 [NUL; NUL])).

(** The rest of the function: the input goes into a pipe that becomes
    standard input, the command is started with [popen] and its output is
    gathered.  The pipe has no reader while it is written, so a write
    beyond its capacity never ends. *)
Definition run_subprocess (o : os) (input command : list byte)
  : M (option (list byte)) :=
  if pipe_capacity o <? Z.of_nat (strlen input) then
    emit (PipeWrite (firstn (Z.to_nat (pipe_capacity o)) (cstr input))) ;;
    blocked
  else
    emit (PipeWrite (cstr input)) ;;
    emit PipeCloseWrite ;;
    emit Dup2Stdin ;;
    emit (Popen (cstr command)) ;;
    here <- getcwd ;;
    match spawn o here (cstr command) (cstr input) with
    | None =>
        perror (lit "popen") ;;
        parent <- getppid ;; kill parent ;; exit 1
    | Some stream =>
        output <- read_output o stream None 1 ;;
        emit PipeCloseRead ;;
        emit Pclose ;;
        ret output
    end.

(** The result is the pointer the C function returns: none for NULL, else
    the block it points to. *)
Definition execute_on_current_node (o : os) (input command : list byte)
  : M (option (list byte)) :=
  if is_cd command then change_directory o command
  else run_subprocess o input command.

(** ** [shell_handler] *)

Definition red : M unit := printf (ESC :: lit "[1;31m").
Definition green : M unit := printf (ESC :: lit "[1;32m").
Definition cyan : M unit := printf (ESC :: lit "[1;36m").
Definition reset : M unit := printf (ESC :: lit "[0m").

(** What one call of [getline] on the operator's input gives: -1 (the input
    is closed or the read failed), or the bytes it stored, a line with its
    newline or what was left before the end of the input. *)
Inductive line_read : Type :=
| NoLine
| Line (bytes : list byte).

Definition line_length (got : line_read) : Z :=
  match got with
  | NoLine => -1
  | Line bytes => Z.of_nat (length bytes)
  end.

Definition line_buffer (got : line_read) : list byte :=
  match got with
  | NoLine => []
  | Line bytes => bytes ++ [NUL]
  end.

(** The body of a header or of a payload read into a fresh block of
    [size + 1] bytes and terminated at [size]; [got] is what read gave. *)
Definition filled (o : os) (size : nat) (got : option (list byte))
  : list byte :=
  let block := malloc o (size + 1) in
  poke (match got with Some data => store block data | None => block end)
       size NUL.

(** [strcpy(msg, hdr); strcat(msg, body)] *)
Definition message (hdr body : list byte) : list byte := cstr hdr ++ cstr body.

(** One pass of the [while (true)] of [shell_handler]. *)
Definition shell_turn (o : os) (got : line_read) : M unit :=
  cyan ;; printf (LF :: lit "[shell]-> ") ;; reset ;;
  let cmd_inp_len := line_length got in
  let cmd_buff := line_buffer got in
  if ((cmd_inp_len <=? 0) ||
      ((cmd_inp_len =? 1) && Ascii.eqb (nth 0 cmd_buff NUL) LF))%bool
  then ret tt
  else
    let cmd_buff := poke cmd_buff (Z.to_nat (cmd_inp_len - 1)) NUL in
    child <- get_child_pid ;;
    if streq cmd_buff (lit "exit") then
      green ;; printf (LF :: lit "EXITING SHELL..." ++ [LF; LF]) ;; reset ;;
      kill child ;; exit 1
    else
      hdr <- get_header_str (lit "c") (to_int (cmd_inp_len - 1)) ;;
      let msg := message hdr cmd_buff in
      bytes_sent <- write msg ;;
      if bytes_sent <? 0 then
        perror (lit "write") ;;
        printf (lit "Exiting application." ++ [LF]) ;;
        kill child ;; exit 1
      else if bytes_sent <? Z.of_nat (length msg) then
        printf (LF :: lit "Unable to send the complete command to server. Possible network error. Exiting application." ++ [LF]) ;;
        kill child ;; exit 1
      else
        printf (lit "Command sent to server: " ++ msg ++
                lit ". Waiting for response...." ++ [LF]) ;;
        got_hdr <- read 6 ;;
        match got_hdr with
        | None => perror (lit "read") ;; kill child ;; exit 1
        | Some _ =>
            let output_hdr := filled o 6 got_hdr in
            if Ascii.eqb (header_tag output_hdr) "o" then
              let output_size := header_size output_hdr in
              if output_size <? 0 then undefined
              else
                got_body <- read (Z.to_nat output_size) ;;
                let output := filled o (Z.to_nat output_size) got_body in
                green ;; printf (LF :: cstr output ++ [LF]) ;; reset
            else
              printf (LF :: lit "tPossible application or network error detected. Exiting application." ++ [LF]) ;;
              kill child ;; exit 1
        end.

(** [shell_handler] over the next results of [getline]; it returns only in
    the model, when the script is used up and the loop is still running. *)
Fixpoint shell_handler (o : os) (script : list line_read) : M unit :=
  match script with
  | [] => ret tt
  | got :: later => shell_turn o got ;; shell_handler o later
  end.

(** ** [request_handler] *)

(** What is done on a failure in the child: tell the parent and exit. *)
Definition abandon {A} : M A :=
  parent <- getppid ;; kill parent ;; exit 1.

(** Reading the two headers and the two bodies of a request. *)
Definition receive_request (o : os) : M (list byte * list byte) :=
  got_cmd_hdr <- read 6 ;;
  match got_cmd_hdr with
  | None => perror (lit "read") ;; abandon
  | Some _ =>
      let cmd_hdr := filled o 6 got_cmd_hdr in
      got_inp_hdr <- read 6 ;;
      match got_inp_hdr with
      | None => perror (lit "read") ;; abandon
      | Some _ =>
          let inp_hdr := filled o 6 got_inp_hdr in
          if Ascii.eqb (header_tag inp_hdr) "i" then
            let inp_size := header_size inp_hdr in
            if inp_size <? 0 then undefined
            else
              got_inp <- read (Z.to_nat inp_size) ;;
              let inp := filled o (Z.to_nat inp_size) got_inp in
              if Ascii.eqb (header_tag cmd_hdr) "c" then
                let cmd_size := header_size cmd_hdr in
                if cmd_size <? 0 then undefined
                else
                  got_cmd <- read (Z.to_nat cmd_size) ;;
                  let cmd := filled o (Z.to_nat cmd_size) got_cmd in
                  ret (inp, cmd)
              else
                printf (LF :: lit "Possible application or network error detected. Exiting application." ++ [LF]) ;;
                abandon
          else
            printf (LF :: lit "Possible application or network error detected. Exiting application." ++ [LF]) ;;
            abandon
      end
  end.

(** Sending the output back; [strlen(output)] of a null pointer is
    undefined. *)
Definition send_output (output : option (list byte)) : M unit :=
  match output with
  | None => undefined
  | Some block =>
      output_hdr <- get_header_str (lit "o") (to_int (Z.of_nat (strlen block))) ;;
      let msg := message output_hdr block in
      bytes_sent <- write msg ;;
      if bytes_sent <? 0 then
        perror (lit "write") ;;
        printf (lit "Exiting application." ++ [LF]) ;;
        abandon
      else if bytes_sent <? Z.of_nat (length msg) then
        printf (LF :: lit "Unable to send the complete output to server. Possible network error. Exiting application." ++ [LF]) ;;
        abandon
      else ret tt
  end.

(** One pass of the [while (true)] of [request_handler], on the connection
    [accept] returned. *)
Definition request_turn (o : os) (serv_sock : socket) : M unit :=
  set_conn serv_sock ;;
  request <- receive_request o ;;
  output <- execute_on_current_node o (fst request) (snd request) ;;
  send_output output.

Fixpoint request_handler (o : os) (connections : list socket) : M unit :=
  match connections with
  | [] => ret tt
  | serv_sock :: later => request_turn o serv_sock ;; request_handler o later
  end.

(** ** The two processes of the agent *)

(** [main] installs [sigusr1_handler] and forks: the parent runs
    [shell_handler], the child [request_handler]. *)
Inductive status : Type :=
| Running
| Exited (code : Z)
| Crashed        (* stopped by undefined behaviour *)
| Stuck          (* blocked for ever *)
| Terminated.    (* killed by a signal it does not handle *)

Record agent : Type := mkAgent {
  shell : proc;
  shell_status : status;
  requests : proc;
  requests_status : status
}.

Definition status_after {A} (out : outcome A) : status :=
  match out with
  | Ret _ => Running
  | Exit code => Exited code
  | Undefined => Crashed
  | Blocked => Stuck
  | Killed => Terminated
  end.

(** The parent and the child as [fork] leaves them. *)
Definition forked (a : agent) : Prop :=
  child_pid (shell a) = pid (requests a) /\
  ppid (requests a) = pid (shell a) /\
  child_pid (requests a) = 0.

(** The events a turn added. *)
Definition news (before after : proc) : list event :=
  skipn (length (trace before)) (trace after).

(** [kill(target, SIGUSR1)] reaches the process of that number; target 0 is
    the whole process group, which holds both processes. *)
Definition reaches (target : Z) (victim : proc) : bool :=
  ((target =? pid victim) || (target =? 0))%bool.

Definition signalled (events : list event) (victim : proc) : bool :=
  existsb (fun e => match e with
                    | Kill target => reaches target victim
                    | _ => false
                    end) events.

(** A process that is still alive runs [sigusr1_handler] when the signal
    reaches it. *)
Definition deliver (victim : proc) (st : status) : status :=
  match st with
  | Running | Stuck => status_after (fst (sigusr1_handler victim))
  | Exited _ | Crashed | Terminated => st
  end.

(** The agent moves by turns of its two loops; a process that has stopped
    takes no turn. *)
Inductive turn : Type :=
| ShellTurn (got : line_read)
| RequestTurn (serv_sock : socket).

Definition step (o : os) (t : turn) (a : agent) : agent :=
  match t with
  | ShellTurn got =>
      match shell_status a with
      | Running =>
          let (out, after) := shell_turn o got (shell a) in
          mkAgent after (status_after out) (requests a)
                  (if signalled (news (shell a) after) (requests a)
                   then deliver (requests a) (requests_status a)
                   else requests_status a)
      | _ => a
      end
  | RequestTurn serv_sock =>
      match requests_status a with
      | Running =>
          let (out, after) := request_turn o serv_sock (requests a) in
          mkAgent (shell a)
                  (if signalled (news (requests a) after) (shell a)
                   then deliver (shell a) (shell_status a)
                   else shell_status a)
                  after (status_after out)
      | _ => a
      end
  end.

Definition run (o : os) (turns : list turn) (a : agent) : agent :=
  fold_left (fun a t => step o t a) turns a.

(** ** Notions the statements are written with *)

Definition all_digits (l : list byte) : Prop :=
  Forall (fun c => isdigit c = true) l.

Definition is_tag (tag : byte) : Prop :=
  tag = "c"%char \/ tag = "o"%char \/ tag = "i"%char.

(** A header of six bytes that carries a tag and a length, as the handlers
    decode it. *)
Definition announces (tag : byte) (n : nat) (hdr : list byte) : Prop :=
  length hdr = 6%nat /\ header_tag hdr = tag /\ header_size hdr = Z.of_nat n.

(** Bytes that arrive in one piece, ahead of what comes later. *)
Definition pieces (bytes : list byte) (later : list arrival) : list arrival :=
  match bytes with
  | [] => later
  | _ => Data bytes :: later
  end.

(** Who [get_header_str] signals before it exits. *)
Definition header_victim (p : proc) : Z :=
  if pid p =? child_pid p then ppid p else child_pid p.

(** The block that holds what was gathered so far. *)
Definition holds (acc : list byte) (output : option (list byte)) : Prop :=
  output = Some (acc ++ [NUL]) \/ (output = None /\ acc = []).

(** The subprocess branch when the input fits the pipe. *)
Definition launched (input command : list byte) (p : proc) : proc :=
  with_trace p (trace p ++ [PipeWrite (cstr input); PipeCloseWrite; Dup2Stdin;
                            Popen (cstr command)]).

(** The frames a process has put on its connection. *)
Definition sent (events : list event) : list byte :=
  flat_map (fun e => match e with Sent bytes => bytes | _ => [] end) events.

(** The processes signalled in a trace. *)
Definition kills (events : list event) : list Z :=
  flat_map (fun e => match e with Kill target => [target] | _ => [] end)
           events.

(** The process serving a connection on which [arrivals] are to come. *)
Definition serving (p : proc) (arrivals : list arrival) : proc :=
  with_conn p (mkSocket arrivals []).

(** What the shell prints before it waits for a line. *)
Definition prompt : list event :=
  [Print (ESC :: lit "[1;36m"); Print (LF :: lit "[shell]-> ");
   Print (ESC :: lit "[0m")].

(** What it prints and does on the line [exit]. *)
Definition farewell (child : Z) : list event :=
  [Print (ESC :: lit "[1;32m");
   Print (LF :: lit "EXITING SHELL..." ++ [LF; LF]);
   Print (ESC :: lit "[0m");
   Kill child].

(** ** A machine to run examples on *)

Definition same (a b : list byte) : bool :=
  if list_eq_dec ascii_dec a b then true else false.

(** [/tmp] is the only directory besides the current one; [cat] copies its
    input, [pwd] names the directory, the [printf] prints [a], a NUL and
    [b], and every other command prints nothing.  Pipes hold 65536 bytes,
    memory is granted, fresh blocks are full of [#]. *)
Definition lab : os :=
  mkOs (fun here path =>
          if same path (lit "/tmp") then Some (lit "/tmp") else None)
       (fun here command stdin =>
          if same command (lit "cat") then Some stdin
          else if same command (lit "pwd") then Some (here ++ [LF])
          else if same command (lit "printf 'a\0b'")
               then Some ["a"%char; NUL; "b"%char]
          else Some [])
       65536 (fun _ => true) (fun _ => "#"%char).

Definition lab_parent : proc :=
  mkProc 100 1 101 (lit "/home/u") (mkSocket [] []) [].

Definition lab_child : proc :=
  mkProc 101 100 0 (lit "/home/u") (mkSocket [] []) [].

Definition lab_agent : agent := mkAgent lab_parent Running lab_child Running.

(** ** [main] *)

(** What [main] meets when it starts: the entry [getpwuid] finds and its
    [pw_name] (each may be null), the connection [connect] opens, none when
    it fails, and the number [fork] returns in the parent, none for -1. *)
Record boot : Type := mkBoot {
  passwd : option (option (list byte));
  connects : option socket;
  forks : option positive
}.

(** [main] up to [fork]: the login name, the home directory, the
    connection.  [pass->pw_name] with a null [pass] is undefined.  The block
    allocated for [home_dir] has [6 + strlen(login_name)] bytes, one fewer
    than [sprintf] writes; the model keeps the string, not the block. *)
Definition main_setup (o : os) (b : boot) : M unit :=
  match passwd b with
  | None => undefined
  | Some None =>
      printf (lit "Couldn't access login username. Exiting." ++ [LF]) ;;
      exit 1
  | Some (Some login_name) =>
      printf (lit "Login detected: " ++ cstr login_name ++ [LF]) ;;
      let home_dir := lit "/home/" ++ cstr login_name in
      here <- getcwd ;;
      match chdir_to o here home_dir with
      | Some there => set_cwd there
      | None =>
          perror (lit "chdir") ;;
          printf (lit "Couldn't change directory." ++ [LF])
      end ;;
      match connects b with
      | Some serv_socket => set_conn serv_socket
      | None =>
          printf (lit "Couldn't connect to server. Exiting application." ++ [LF]) ;;
          perror (lit "connect") ;;
          exit 1
      end
  end.

(** How [main] ends: with the two processes on their loops, or with the
    one process stopped. *)
Inductive launch : Type :=
| Launched (a : agent)
| Ended (out : outcome unit) (p : proc).

(** [child_pid = fork()] gives the child's number to the parent and 0 to
    the child, which is otherwise a copy; the parent goes to
    [shell_handler], the child to [request_handler]. *)
Definition main (o : os) (b : boot) (p : proc) : launch :=
  match main_setup o b p with
  | (Ret _, q) =>
      match forks b with
      | Some c =>
          Launched
            (mkAgent
               (mkProc (pid q) (ppid q) (Zpos c) (cwd q) (conn q) (trace q))
               Running
               (mkProc (Zpos c) (pid q) 0 (cwd q) (conn q) (trace q))
               Running)
      | None =>
          let (out, q') :=
            (printf (lit "Couldn't create a child process. Exiting application." ++ [LF]) ;;
             exit 1) q in
          Ended out q'
      end
  | (out, q) => Ended out q
  end.

(** ** Notions for the rest of the code *)

(** The half of a turn of [shell_handler] that comes after the command was
    written: the reply header, its tag, the reply, its display. *)
Definition await_reply (o : os) (child : Z) : M unit :=
  got_hdr <- read 6 ;;
  match got_hdr with
  | None => perror (lit "read") ;; kill child ;; exit 1
  | Some _ =>
      let output_hdr := filled o 6 got_hdr in
      if Ascii.eqb (header_tag output_hdr) "o" then
        let output_size := header_size output_hdr in
        if output_size <? 0 then undefined
        else
          got_body <- read (Z.to_nat output_size) ;;
          let output := filled o (Z.to_nat output_size) got_body in
          green ;; printf (LF :: cstr output ++ [LF]) ;; reset
      else
        printf (LF :: lit "tPossible application or network error detected. Exiting application." ++ [LF]) ;;
        kill child ;; exit 1
  end.

(** The half before it, from the write of the message on. *)
Definition send_command (o : os) (child : Z) (msg : list byte) : M unit :=
  bytes_sent <- write msg ;;
  if bytes_sent <? 0 then
    perror (lit "write") ;;
    printf (lit "Exiting application." ++ [LF]) ;;
    kill child ;; exit 1
  else if bytes_sent <? Z.of_nat (length msg) then
    printf (LF :: lit "Unable to send the complete command to server. Possible network error. Exiting application." ++ [LF]) ;;
    kill child ;; exit 1
  else
    printf (lit "Command sent to server: " ++ msg ++
            lit ". Waiting for response...." ++ [LF]) ;;
    await_reply o child.

(** The numbers a process is known by do not change. *)
Definition same_ids (p q : proc) : Prop :=
  pid q = pid p /\ ppid q = ppid p /\ child_pid q = child_pid p.

(** Whom the code of the shell signals, and whom the code of the request
    handler. *)
Definition shell_target (p : proc) (t : Z) : Prop :=
  t = child_pid p \/ t = header_victim p.

Definition request_target (p : proc) (t : Z) : Prop :=
  t = ppid p \/ t = header_victim p.

(** A piece of code that signals only when it is about to exit, and exits
    only after it has signalled: from [p] it leaves the numbers of the
    process alone and adds to the trace; when it exits, the status is 1 and
    the last event is the one signal it sent, to a process [T] allows; when
    it does not, it has sent no signal. *)
Definition tied_at (T : proc -> Z -> Prop) (p : proc) {A} (m : M A) : Prop :=
  forall out q,
    m p = (out, q) ->
    same_ids p q /\
    exists events,
      trace q = trace p ++ events /\
      match out with
      | Exit code =>
          code = 1 /\
          exists quiet t,
            events = quiet ++ [Kill t] /\ kills quiet = [] /\ T p t
      | _ => kills events = []
      end.

(** The same, of the result of one run from [p]. *)
Definition ends_tied (T : proc -> Z -> Prop) (p : proc) {A}
    (r : outcome A * proc) : Prop :=
  same_ids p (snd r) /\
  exists events,
    trace (snd r) = trace p ++ events /\
    match fst r with
    | Exit code =>
        code = 1 /\
        exists quiet t,
          events = quiet ++ [Kill t] /\ kills quiet = [] /\ T p t
    | _ => kills events = []
    end.

Definition stable (T : proc -> Z -> Prop) : Prop :=
  forall p q t, same_ids p q -> T q t -> T p t.

Definition no_kill (e : event) : Prop :=
  match e with Kill _ => False | _ => True end.

(** A line the shell sends as a command: not empty, not [exit], free of
    NUL, and short enough for a header. *)
Definition sendable (body : list byte) : Prop :=
  body <> [] /\ nul_free body /\ body <> lit "exit" /\
  Z.of_nat (length body) <= 99999.

(** The frame that carries it. *)
Definition command_frame (body : list byte) : list byte :=
  header_str (lit "c") (Z.of_nat (length body)) ++ body.

(** The process after the next scripted write was used up. *)
Definition with_accepts (p : proc) (more : list write_result) : proc :=
  with_conn p (mkSocket (inbound (conn p)) more).

(** An event that puts nothing on the connection. *)
Definition unsent (e : event) : Prop :=
  match e with Sent _ => False | _ => True end.



(** ** Running the monad *)

Section Running.

Lemma trace_with_trace (p : proc) (events : list event) :
  trace (with_trace p events) = events.
Proof. reflexivity. Qed.

Lemma with_trace_twice (p : proc) (e1 e2 : list event) :
  with_trace (with_trace p e1) e2 = with_trace p e2.
Proof. reflexivity. Qed.

Lemma with_trace_same (p : proc) : with_trace p (trace p) = p.
Proof. destruct p. reflexivity. Qed.

Lemma with_trace_nil (p : proc) : with_trace p (trace p ++ []) = p.
Proof. rewrite app_nil_r. apply with_trace_same. Qed.

Lemma bind_ret {A B} (a : A) (k : A -> M B) (p : proc) :
  (x <- ret a ;; k x) p = k a p.
Proof. reflexivity. Qed.

Lemma bind_emit {B} (e : event) (k : M B) (p : proc) :
  (emit e ;; k) p = k (with_trace p (trace p ++ [e])).
Proof. reflexivity. Qed.

Lemma bind_getcwd {B} (k : list byte -> M B) (p : proc) :
  (here <- getcwd ;; k here) p = k (cwd p) p.
Proof. reflexivity. Qed.

Lemma bind_getppid {B} (k : Z -> M B) (p : proc) :
  (parent <- getppid ;; k parent) p = k (ppid p) p.
Proof. reflexivity. Qed.

Lemma bind_get_child_pid {B} (k : Z -> M B) (p : proc) :
  (child <- get_child_pid ;; k child) p = k (child_pid p) p.
Proof. reflexivity. Qed.

Lemma bind_assoc {A B C} (m : M A) (f : A -> M B) (g : B -> M C) (p : proc) :
  (y <- (x <- m ;; f x) ;; g y) p = (x <- m ;; y <- f x ;; g y) p.
Proof.
  unfold bind. destruct (m p) as [[a| | | |] p']; reflexivity.
Qed.

Lemma bind_returns {A B} (m : M A) (k : A -> M B) (p p' : proc) (a : A) :
  m p = (Ret a, p') -> (x <- m ;; k x) p = k a p'.
Proof. intros E. unfold bind. now rewrite E. Qed.

End Running.

(** Traces after several events: one update, appended to the right. *)
Ltac tidy :=
  rewrite ?with_trace_twice, ?trace_with_trace, <- ?app_assoc.

(** ** The C library on examples *)

Example atoi_00042 : atoi (lit "00042") = 42.
Proof. reflexivity. Qed.

Example print_int_99999 : print_int 99999 = lit "99999".
Proof. reflexivity. Qed.

Example header_of_5 : header_str (lit "c") 5 = lit "c00005".
Proof. reflexivity. Qed.

Example header_of_0 : header_str (lit "o") 0 = lit "o00000".
Proof. reflexivity. Qed.

(** A [cd] stays in force for the commands that follow. *)
Example cd_then_pwd :
  request_handler lab
    [mkSocket [Data (lit "c00007i00000cd /tmp")] [];
     mkSocket [Data (lit "c00003i00000pwd")] []] lab_child =
  (Ret tt,
   mkProc 101 100 0 (lit "/tmp") (mkSocket [] [])
     [Sent (lit "o00000");
      PipeWrite []; PipeCloseWrite; Dup2Stdin; Popen (lit "pwd");
      Fgets (lit "/tmp" ++ [LF]); PipeCloseRead; Pclose;
      Sent (lit "o00005/tmp" ++ [LF])]).
Proof. vm_compute. reflexivity. Qed.

(** The shell sends a line as a command frame and prints the reply. *)
Example shell_sends_ls :
  shell_turn lab (Line (lit "ls" ++ [LF]))
    (serving lab_parent [Data (lit "o00004a.c" ++ [LF])]) =
  (Ret tt,
   with_trace lab_parent
     (prompt ++
      [Sent (lit "c00002ls");
       Print (lit "Command sent to server: c00002ls. Waiting for response...." ++ [LF]);
       Print (ESC :: lit "[1;32m");
       Print (LF :: lit "a.c" ++ [LF; LF]);
       Print (ESC :: lit "[0m")])).
Proof. vm_compute. reflexivity. Qed.

(** ** Decimal digits: what the header encoder and [atoi] agree on *)

Section Digits.

Lemma count_digits_step (s n : Z) :
  count_digits s n =
  if Z.eq_dec s 0 then n else count_digits (Z.quot s 10) (n + 1).
Proof.
  funelim (count_digits s n);
    destruct (Z.eq_dec s 0); try contradiction; reflexivity.
Qed.

Lemma dec_digits_step (n : Z) :
  dec_digits n =
  if Z_lt_dec n 10 then [digit_char n]
  else dec_digits (n / 10) ++ [digit_char (n mod 10)].
Proof.
  funelim (dec_digits n);
    destruct (Z_lt_dec n 10); try contradiction; try lia; reflexivity.
Qed.

(** The loop of [get_header_str] counts the digits [%d] prints. *)
Lemma count_digits_dec (s : Z) :
  0 <= s -> forall n,
  count_digits s n =
  if s =? 0 then n else n + Z.of_nat (length (dec_digits s)).
Proof.
  intros Hs. pattern s. apply Zlt_0_ind; [clear s Hs | exact Hs].
  intros s IH Hs n. rewrite count_digits_step.
  destruct (Z.eq_dec s 0) as [->|Hnz]; [reflexivity|].
  destruct (Z.eqb_spec s 0) as [|_]; [contradiction|].
  rewrite Z.quot_div_nonneg by lia.
  rewrite IH by (split; [apply Z.div_pos; lia | apply Z.div_lt; lia]).
  rewrite (dec_digits_step s).
  destruct (Z_lt_dec s 10) as [Hlt|Hge].
  - rewrite Z.div_small by lia. simpl. lia.
  - destruct (Z.eqb_spec (s / 10) 0) as [E|_].
    + exfalso. apply Z.div_small_iff in E; lia.
    + rewrite length_app. simpl length. lia.
Qed.

Lemma dec_digits_length_le (k : nat) :
  forall s, 0 <= s < 10 ^ Z.of_nat (S k) ->
  (length (dec_digits s) <= S k)%nat.
Proof.
  induction k as [|k IH]; intros s Hs; rewrite dec_digits_step.
  - change (10 ^ Z.of_nat 1) with 10 in Hs.
    destruct (Z_lt_dec s 10); [simpl; lia | lia].
  - destruct (Z_lt_dec s 10); [simpl; lia|].
    rewrite length_app. simpl length.
    assert (s / 10 < 10 ^ Z.of_nat (S k)).
    { apply Z.div_lt_upper_bound; [lia|].
      replace (Z.of_nat (S (S k))) with (Z.succ (Z.of_nat (S k))) in Hs by lia.
      rewrite Z.pow_succ_r in Hs by lia. lia. }
    assert (0 <= s / 10) by (apply Z.div_pos; lia).
    specialize (IH (s / 10)). lia.
Qed.

Lemma dec_digits_length_gt (k : nat) :
  forall s, 10 ^ Z.of_nat k <= s -> (k < length (dec_digits s))%nat.
Proof.
  induction k as [|k IH]; intros s Hs; rewrite dec_digits_step.
  - destruct (Z_lt_dec s 10); [simpl; lia|].
    rewrite length_app. simpl. lia.
  - replace (Z.of_nat (S k)) with (Z.succ (Z.of_nat k)) in Hs by lia.
    rewrite Z.pow_succ_r in Hs by lia.
    assert (0 < 10 ^ Z.of_nat k) by (apply Z.pow_pos_nonneg; lia).
    destruct (Z_lt_dec s 10); [lia|].
    rewrite length_app. simpl length.
    assert (10 ^ Z.of_nat k <= s / 10) by (apply Z.div_le_lower_bound; lia).
    specialize (IH (s / 10)). lia.
Qed.

Lemma digit_char_facts (d : Z) :
  0 <= d <= 9 ->
  isdigit (digit_char d) = true /\ digit_val (digit_char d) = d /\
  isspace (digit_char d) = false /\ digit_char d <> NUL /\
  digit_char d <> "-"%char /\ digit_char d <> "+"%char.
Proof.
  intros Hd.
  assert (d = 0 \/ d = 1 \/ d = 2 \/ d = 3 \/ d = 4 \/ d = 5 \/ d = 6 \/
          d = 7 \/ d = 8 \/ d = 9) as Hc by lia.
  repeat (destruct Hc as [-> | Hc]); [ .. | subst d];
    (repeat split; try reflexivity; discriminate).
Qed.

Lemma dec_digits_all_digits (s : Z) : 0 <= s -> all_digits (dec_digits s).
Proof.
  intros Hs. pattern s. apply Zlt_0_ind; [clear s Hs | exact Hs].
  intros s IH Hs. rewrite dec_digits_step.
  destruct (Z_lt_dec s 10).
  - constructor; [|constructor]. apply digit_char_facts. lia.
  - apply Forall_app. split.
    + apply IH. split; [apply Z.div_pos; lia | apply Z.div_lt; lia].
    + constructor; [|constructor]. apply digit_char_facts.
      pose proof (Z.mod_pos_bound s 10). lia.
Qed.

Lemma atoi_digits_app (l rest : list byte) :
  all_digits l -> forall acc,
  atoi_digits acc (l ++ rest) =
  atoi_digits (fold_left (fun a c => 10 * a + digit_val c) l acc) rest.
Proof.
  induction 1 as [|c l Hc _ IH]; intros acc; [reflexivity|].
  simpl. rewrite Hc. apply IH.
Qed.

Lemma fold_dec_digits (s : Z) :
  0 <= s -> fold_left (fun a c => 10 * a + digit_val c) (dec_digits s) 0 = s.
Proof.
  intros Hs. pattern s. apply Zlt_0_ind; [clear s Hs | exact Hs].
  intros s IH Hs. rewrite dec_digits_step.
  destruct (Z_lt_dec s 10).
  - cbn [fold_left].
    destruct (digit_char_facts s) as (_ & E & _); [lia|]. rewrite E. lia.
  - rewrite fold_left_app. cbn [fold_left].
    rewrite IH by (split; [apply Z.div_pos; lia | apply Z.div_lt; lia]).
    pose proof (Z.mod_pos_bound s 10).
    destruct (digit_char_facts (s mod 10)) as (_ & E & _); [lia|].
    rewrite E. pose proof (Z.div_mod s 10). lia.
Qed.

Lemma fold_zeroes (k : nat) :
  fold_left (fun a c => 10 * a + digit_val c) (repeat "0"%char k) 0 = 0.
Proof. induction k; [reflexivity | exact IHk]. Qed.

Lemma zeroes_all_digits (k : nat) : all_digits (repeat "0"%char k).
Proof. induction k; constructor; [reflexivity | assumption]. Qed.

End Digits.

(** ** C strings and blocks *)

Section Blocks.

Lemma cstr_app_nul (l rest : list byte) :
  nul_free l -> cstr (l ++ NUL :: rest) = l.
Proof.
  induction 1 as [|b l Hb _ IH]; simpl; [reflexivity|].
  destruct (Ascii.eqb_spec b NUL); [contradiction|]. now rewrite IH.
Qed.

Lemma cstr_terminated (l : list byte) : nul_free l -> cstr (l ++ [NUL]) = l.
Proof. apply cstr_app_nul. Qed.

Lemma malloc_length (o : os) (n : nat) : length (malloc o n) = n.
Proof. unfold malloc. now rewrite length_map, length_seq. Qed.

Lemma poke_end (a : list byte) (x b : byte) (rest : list byte) :
  poke (a ++ x :: rest) (length a) b = a ++ b :: rest.
Proof. induction a as [|c a IH]; simpl; [reflexivity | now rewrite IH]. Qed.

(** A read that gave all [size] bytes leaves them in the block, terminated. *)
Lemma filled_full (o : os) (size : nat) (data : list byte) :
  length data = size -> filled o size (Some data) = data ++ [NUL].
Proof.
  intros <-. unfold filled, store.
  pose proof (malloc_length o (length data + 1)) as Hlen.
  pose proof (length_skipn (length data) (malloc o (length data + 1))) as Hs.
  rewrite Hlen in Hs.
  destruct (skipn (length data) (malloc o (length data + 1))) as [|x [|y r]];
    simpl in Hs; try lia.
  apply poke_end.
Qed.

End Blocks.

(** ** The connection *)

Section Connection.

Lemma with_inbound_same (p : proc) : with_inbound p (inbound (conn p)) = p.
Proof. destruct p as [? ? ? ? [? ?] ?]. reflexivity. Qed.

(** Reading as many bytes as the next piece starts with returns them all
    and leaves the rest of the piece. *)
Lemma read_pieces (a b : list byte) (later : list arrival) (p : proc) :
  inbound (conn p) = pieces (a ++ b) later ->
  read (length a) p = (Ret (Some a), with_inbound p (pieces b later)).
Proof.
  intros Hin. destruct a as [|x a].
  - simpl in *. unfold ret. now rewrite <- Hin, with_inbound_same.
  - unfold read. rewrite Hin. cbn [length app pieces].
    unfold bind, set_conn, ret. cbn [conn accepts].
    replace (firstn (S (length a)) (x :: a ++ b)) with (x :: a).
    2:{ change (x :: a ++ b) with ((x :: a) ++ b).
        change (S (length a)) with (length (x :: a)).
        now rewrite firstn_app, Nat.sub_diag, firstn_all, firstn_O, app_nil_r. }
    replace (skipn (S (length a)) (x :: a ++ b)) with b.
    2:{ change (x :: a ++ b) with ((x :: a) ++ b).
        change (S (length a)) with (length (x :: a)).
        now rewrite skipn_app, Nat.sub_diag, skipn_all, skipn_O. }
    unfold with_inbound, pieces. destruct b; reflexivity.
Qed.

(** A connection with no script left takes a whole message. *)
Lemma write_whole (msg : list byte) (p : proc) :
  accepts (conn p) = [] ->
  write msg p =
  (Ret (Z.of_nat (length msg)), with_trace p (trace p ++ [Sent msg])).
Proof. intros H. unfold write. now rewrite H. Qed.

Lemma read_pieces_next (a b : list byte) (later : list arrival) (p : proc) :
  read (length a) (with_inbound p (pieces (a ++ b) later)) =
  (Ret (Some a), with_inbound p (pieces b later)).
Proof.
  exact (read_pieces a b later (with_inbound p (pieces (a ++ b) later))
           eq_refl).
Qed.

End Connection.

(** ** The header encoder *)

Section Header.

Lemma atoi_digits_nul (l : list byte) (acc : Z) :
  atoi_digits acc (l ++ [NUL]) = atoi_digits acc l.
Proof.
  revert acc. induction l as [|c l IH]; intros acc; simpl; [reflexivity|].
  destruct (isdigit c); [apply IH | reflexivity].
Qed.

Lemma digit_not_sign (c : byte) :
  isdigit c = true ->
  isspace c = false /\ c <> "-"%char /\ c <> "+"%char /\ c <> NUL.
Proof.
  destruct c as [[] [] [] [] [] [] [] []]; cbv; intros H;
    try discriminate H; repeat split; discriminate.
Qed.

Lemma atoi_all_digits (l : list byte) :
  all_digits l ->
  atoi l = fold_left (fun a c => 10 * a + digit_val c) l 0.
Proof.
  intros Hl. destruct Hl as [|c l Hc Hl]; [reflexivity|].
  pose proof (atoi_digits_app (c :: l) [] (Forall_cons _ Hc Hl) 0) as E.
  rewrite app_nil_r in E. cbn [atoi_digits] in E.
  destruct (digit_not_sign c Hc) as (Hs & Hm & Hp & _).
  cbn [atoi]. rewrite Hs. rewrite <- E. clear E.
  unfold atoi_signed.
  destruct c as [[] [] [] [] [] [] [] []]; try reflexivity; congruence.
Qed.

Lemma all_digits_nul_free (l : list byte) : all_digits l -> nul_free l.
Proof.
  induction 1 as [|c l Hc _ IH]; constructor; [|assumption].
  now apply digit_not_sign.
Qed.

Lemma dec_digits_0 : dec_digits 0 = ["0"%char].
Proof. reflexivity. Qed.

(** For a length of at most five digits the loop finds their number. *)
Lemma num_length_of_small (size : Z) :
  0 <= size <= 99999 ->
  num_length_of size = Z.of_nat (length (dec_digits size)) /\
  1 <= num_length_of size <= 5.
Proof.
  intros Hs. unfold num_length_of. rewrite count_digits_dec by lia.
  destruct (Z.eqb_spec size 0) as [->|Hnz].
  - rewrite dec_digits_0. split; [reflexivity | lia].
  - pose proof (dec_digits_length_le 4 size) as Hle.
    pose proof (dec_digits_length_gt 0 size) as Hgt.
    change (10 ^ Z.of_nat 5) with 100000 in Hle.
    change (10 ^ Z.of_nat 0) with 1 in Hgt. lia.
Qed.

(** From six digits on the loop finds more than five. *)
Lemma num_length_of_large (size : Z) :
  100000 <= size -> 5 < num_length_of size.
Proof.
  intros Hs. unfold num_length_of. rewrite count_digits_dec by lia.
  destruct (Z.eqb_spec size 0) as [->|Hnz]; [lia|].
  pose proof (dec_digits_length_gt 5 size) as Hgt.
  change (10 ^ Z.of_nat 5) with 100000 in Hgt. lia.
Qed.

Lemma header_str_small (co : list byte) (size : Z) :
  0 <= size <= 99999 ->
  header_str co size =
  cstr co ++ repeat "0"%char (5 - length (dec_digits size)) ++ dec_digits size.
Proof.
  intros Hs. unfold header_str, print_int.
  destruct (num_length_of_small size Hs) as [-> Hn].
  destruct (Z.ltb_spec size 0); [lia|].
  rewrite cstr_terminated
    by (apply all_digits_nul_free, zeroes_all_digits).
  do 3 f_equal. unfold HEADER_SIZE. lia.
Qed.

Lemma header_str_length (co : list byte) (size : Z) :
  0 <= size <= 99999 ->
  length (header_str co size) = (length (cstr co) + 5)%nat.
Proof.
  intros Hs. rewrite header_str_small by assumption.
  destruct (num_length_of_small size Hs) as [E Hn]. rewrite E in Hn.
  rewrite !length_app, repeat_length. lia.
Qed.

Lemma header_digits_value (size : Z) :
  0 <= size <= 99999 ->
  atoi (repeat "0"%char (5 - length (dec_digits size)) ++ dec_digits size)
  = size.
Proof.
  intros Hs. rewrite atoi_all_digits.
  - rewrite fold_left_app, fold_zeroes. apply fold_dec_digits. lia.
  - apply Forall_app. split;
      [apply zeroes_all_digits | apply dec_digits_all_digits; lia].
Qed.

Lemma get_header_str_small (co : list byte) (size : Z) (p : proc) :
  0 <= size <= 99999 ->
  get_header_str co size p = (Ret (header_str co size), p).
Proof.
  intros Hs. unfold get_header_str.
  destruct (num_length_of_small size Hs) as [_ Hn].
  destruct (Z.ltb_spec (HEADER_SIZE - 1) (num_length_of size));
    [unfold HEADER_SIZE in *; lia | reflexivity].
Qed.

Lemma get_header_str_large (co : list byte) (size : Z) (p : proc) :
  100000 <= size ->
  get_header_str co size p =
  (Exit 1,
   with_trace p (trace p ++ [Print (lit "output is too long, exiting." ++ [LF]);
                             Kill (header_victim p)])).
Proof.
  intros Hs. unfold get_header_str.
  pose proof (num_length_of_large size Hs).
  destruct (Z.ltb_spec (HEADER_SIZE - 1) (num_length_of size));
    [|unfold HEADER_SIZE in *; lia].
  unfold bind, printf, emit, getpid, get_child_pid, getppid, kill, exit,
    header_victim, with_trace.
  cbn. destruct (pid p =? child_pid p); cbn; now rewrite <- app_assoc.
Qed.

Lemma to_int_small (z : Z) : - 2 ^ 31 <= z <= INT_MAX -> to_int z = z.
Proof.
  unfold to_int, INT_MAX. intros Hz.
  rewrite Z.mod_small by lia. lia.
Qed.

Lemma to_size_t_small (z : Z) : 0 <= z <= INT_MAX -> to_size_t z = z.
Proof.
  unfold to_size_t, INT_MAX. intros Hz. apply Z.mod_small. lia.
Qed.

End Header.

(** ** Frames: a header and its payload *)

Section Frames.

Lemma atoi_signed_nul (l : list byte) :
  atoi_signed (l ++ [NUL]) = atoi_signed l.
Proof.
  destruct l as [|c l]; [reflexivity|].
  cbn [app]. unfold atoi_signed.
  destruct c as [[] [] [] [] [] [] [] []];
    first [ now rewrite atoi_digits_nul
          | exact (atoi_digits_nul (_ :: l) 0) ].
Qed.

Lemma atoi_nul (l : list byte) : atoi (l ++ [NUL]) = atoi l.
Proof.
  induction l as [|c l IH]; [reflexivity|].
  cbn [app atoi]. destruct (isspace c); [exact IH|].
  exact (atoi_signed_nul (c :: l)).
Qed.

Lemma header_str_tag (tag : byte) (size : Z) :
  is_tag tag -> 0 <= size <= 99999 ->
  header_str [tag] size =
  tag :: repeat "0"%char (5 - length (dec_digits size)) ++ dec_digits size.
Proof.
  intros Htag Hs. rewrite header_str_small by assumption.
  destruct Htag as [-> | [-> | ->]]; reflexivity.
Qed.

Lemma header_str_nul_free (tag : byte) (size : Z) :
  is_tag tag -> 0 <= size <= 99999 -> nul_free (header_str [tag] size).
Proof.
  intros Htag Hs. rewrite header_str_tag by assumption.
  constructor.
  - destruct Htag as [-> | [-> | ->]]; discriminate.
  - apply Forall_app. split; apply all_digits_nul_free;
      [apply zeroes_all_digits | apply dec_digits_all_digits; lia].
Qed.

Lemma cstr_of_nul_free (l : list byte) : nul_free l -> cstr l = l.
Proof.
  intros H. rewrite <- (cstr_terminated l H) at 2.
  induction H as [|b l Hb _ IH]; simpl; [reflexivity|].
  destruct (Ascii.eqb_spec b NUL); [contradiction|]. now rewrite IH.
Qed.

(** What a handler finds in a header block it filled with a header of the
    encoder. *)
Lemma decode_header_str (o : os) (tag : byte) (size : Z) :
  is_tag tag -> 0 <= size <= 99999 ->
  header_tag (filled o 6 (Some (header_str [tag] size))) = tag /\
  header_size (filled o 6 (Some (header_str [tag] size))) = size.
Proof.
  intros Htag Hs.
  rewrite filled_full.
  2:{ rewrite header_str_length by assumption.
      destruct Htag as [-> | [-> | ->]]; reflexivity. }
  rewrite header_str_tag by assumption. split; [reflexivity|].
  unfold header_size. cbn [app skipn].
  rewrite atoi_nul. now apply header_digits_value.
Qed.

End Frames.

(** C1, as the code has it.  For each of the tags c, o and i and every
    payload of length n, 0 <= n <= 99999, that holds no NUL:
    [get_header_str] returns a header of 6 bytes; a handler that reads 6
    bytes of the frame, the header with the payload appended by [strcat],
    and decodes them as the handlers do finds the same tag and the length n;
    and reading exactly n bytes more gives back the payload, byte for
    byte. *)
Theorem header_round_trip (o : os) (tag : byte) (payload : list byte)
    (later : list arrival) (p q : proc) :
  is_tag tag -> nul_free payload -> Z.of_nat (length payload) <= 99999 ->
  let n := length payload in
  let hdr := header_str [tag] (Z.of_nat n) in
  inbound (conn q) = pieces (message hdr (payload ++ [NUL])) later ->
  get_header_str [tag] (Z.of_nat n) p = (Ret hdr, p) /\
  length hdr = 6%nat /\
  read 6 q = (Ret (Some hdr), with_inbound q (pieces payload later)) /\
  header_tag (filled o 6 (Some hdr)) = tag /\
  header_size (filled o 6 (Some hdr)) = Z.of_nat n /\
  read (Z.to_nat (header_size (filled o 6 (Some hdr))))
       (with_inbound q (pieces payload later))
  = (Ret (Some payload), with_inbound q later) /\
  cstr (filled o n (Some payload)) = payload.
Proof.
  intros Htag Hfree Hlen n hdr Hin.
  assert (Hs : 0 <= Z.of_nat n <= 99999) by lia.
  assert (Hl : length hdr = 6%nat).
  { unfold hdr. rewrite header_str_length by assumption.
    destruct Htag as [-> | [-> | ->]]; reflexivity. }
  destruct (decode_header_str o tag (Z.of_nat n) Htag Hs) as [Ht Hz].
  fold hdr in Ht, Hz.
  unfold message in Hin.
  rewrite (cstr_of_nul_free hdr) in Hin
    by (apply header_str_nul_free; assumption).
  rewrite cstr_terminated in Hin by assumption.
  repeat split.
  - now apply get_header_str_small.
  - exact Hl.
  - rewrite <- Hl. now apply read_pieces.
  - exact Ht.
  - exact Hz.
  - rewrite Hz, Nat2Z.id.
    pose proof (read_pieces_next payload [] later q) as R.
    now rewrite app_nil_r in R.
  - rewrite filled_full by reflexivity. now apply cstr_terminated.
Qed.

(** ** The execution engine *)

Section Engine.

Variable o : os.

Lemma read_output_step (stream : list byte) (output : option (list byte))
    (curr_size : Z) :
  read_output o stream output curr_size =
  match fgets 200 stream with
  | None => ret output
  | Some (line, rest) =>
      let tmp_buffer := line ++ [NUL] in
      let request := to_size_t (curr_size + Z.of_nat (strlen tmp_buffer)) in
      emit (Fgets line) ;;
      if grants o request then
        if curr_size - 1 <? 0 then undefined
        else
          let block := realloc o output (Z.to_nat request) in
          let block :=
            strcpy_at block (Z.to_nat (curr_size - 1)) tmp_buffer in
          read_output o rest (Some block)
            (to_int (curr_size + Z.of_nat (strlen tmp_buffer)))
      else
        printf (lit "Memory allocation  error. Exiting. " ++ [LF]) ;;
        parent <- getppid ;; kill parent ;; exit 1
  end.
Proof.
  funelim (read_output o stream output curr_size);
    match goal with E : fgets _ _ = _ |- _ => rewrite E end; reflexivity.
Qed.

Lemma fgets_take_split (k : nat) (stream : list byte) :
  fst (fgets_take k stream) ++ snd (fgets_take k stream) = stream.
Proof.
  revert stream. induction k as [|k IH]; intros [|c rest]; simpl;
    try reflexivity.
  destruct (Ascii.eqb c LF); simpl; [reflexivity|].
  specialize (IH rest). destruct (fgets_take k rest) as [line rest'].
  simpl in *. now rewrite IH.
Qed.

(** What [fgets] gives on a stream that has not ended. *)
Lemma fgets_some (c : byte) (stream : list byte) :
  exists line rest,
    fgets 200 (c :: stream) = Some (line, rest) /\
    line ++ rest = c :: stream /\
    (length rest < length (c :: stream))%nat.
Proof.
  unfold fgets.
  destruct (fgets_take (200 - 1) (c :: stream)) as [line rest] eqn:E.
  exists line, rest. split; [reflexivity|].
  pose proof (fgets_take_split (200 - 1) (c :: stream)) as Hs.
  pose proof (fgets_take_shorter (200 - 1) (c :: stream)) as [_ Hl].
  rewrite E in Hs, Hl. simpl fst in Hs. simpl snd in Hs, Hl.
  split; [exact Hs | apply Hl; [lia | discriminate]].
Qed.

(** Induction on streams by their length. *)
Lemma shorter_ind (P : list byte -> Prop) :
  (forall stream,
     (forall rest, (length rest < length stream)%nat -> P rest) -> P stream) ->
  forall stream, P stream.
Proof.
  intros step stream.
  induction stream as [stream IH]
    using (well_founded_induction (well_founded_ltof _ (@length byte))).
  apply step. exact IH.
Qed.

(** Whatever the command prints, gathering it touches nothing of the
    process but its trace. *)
Lemma read_output_frame (stream : list byte) :
  forall output curr_size p,
  exists out events,
    read_output o stream output curr_size p =
    (out, with_trace p (trace p ++ events)).
Proof.
  induction stream as [stream IH] using shorter_ind.
  intros output curr_size p. rewrite read_output_step.
  destruct stream as [|c stream'].
  - exists (Ret output), []. unfold fgets, ret. now rewrite with_trace_nil.
  - destruct (fgets_some c stream') as (line & rest & -> & _ & Hlt).
    cbv zeta. rewrite bind_emit.
    destruct (grants o _).
    + destruct (curr_size - 1 <? 0).
      * exists Undefined, [Fgets line]. reflexivity.
      * edestruct (IH rest Hlt) as (out & events & ->).
        exists out, (Fgets line :: events).
        tidy. reflexivity.
    + eexists (Exit 1), _. unfold printf, kill.
      rewrite bind_emit, bind_getppid, bind_emit.
      unfold exit. tidy. reflexivity.
Qed.

Lemma grow_block (acc line : list byte) (output : option (list byte)) :
  holds acc output -> nul_free line ->
  strcpy_at (realloc o output (length acc + length line + 1))
            (length acc) (line ++ [NUL])
  = (acc ++ line) ++ [NUL].
Proof.
  intros Hh Hline. unfold strcpy_at, strlen.
  rewrite cstr_terminated by assumption.
  assert (Hblock : exists tail,
            realloc o output (length acc + length line + 1) = acc ++ tail /\
            length tail = (length line + 1)%nat).
  { destruct Hh as [-> | [-> ->]]; unfold realloc.
    - exists (firstn (length line + 1)
                ([NUL] ++ malloc o (length acc + length line + 1))).
      rewrite <- app_assoc.
      rewrite firstn_app, firstn_all2 by lia.
      replace (length acc + length line + 1 - length acc)%nat
        with (length line + 1)%nat by lia.
      split; [reflexivity|].
      rewrite length_firstn, length_app, malloc_length. simpl. lia.
    - exists (malloc o (0 + length line + 1)). split; [reflexivity|].
      rewrite malloc_length. simpl. lia. }
  destruct Hblock as (tail & -> & Htail).
  rewrite firstn_app, firstn_all, Nat.sub_diag, firstn_O, app_nil_r.
  rewrite skipn_all2 by (rewrite length_app; lia).
  now rewrite <- !app_assoc.
Qed.

(** The loop gathers a stream without NUL whole, when memory is granted and
    the count stays within [int]. *)
Lemma read_output_gathers (stream : list byte) :
  forall acc output p,
  nul_free stream -> holds acc output ->
  (forall n, grants o n = true) ->
  1 + Z.of_nat (length acc) + Z.of_nat (length stream) <= INT_MAX ->
  exists reads,
    read_output o stream output (1 + Z.of_nat (length acc)) p =
    (Ret (match stream with
          | [] => output
          | _ => Some ((acc ++ stream) ++ [NUL])
          end),
     with_trace p (trace p ++ map Fgets reads)) /\
    concat reads = stream.
Proof.
  induction stream as [stream IH] using shorter_ind.
  intros acc output p Hfree Hh Hgrants Hmax. rewrite read_output_step.
  destruct stream as [|c stream'].
  - exists []. unfold fgets, ret. simpl. now rewrite with_trace_nil.
  - destruct (fgets_some c stream') as (line & rest & -> & Hsplit & Hlt).
    assert (Hfree' : nul_free line /\ nul_free rest).
    { rewrite <- Hsplit in Hfree. now apply Forall_app in Hfree. }
    destruct Hfree' as [Hline Hrest].
    assert (Hlen : length (c :: stream') = (length line + length rest)%nat)
      by (rewrite <- Hsplit; apply length_app).
    cbv zeta. rewrite bind_emit, Hgrants.
    unfold strlen. rewrite cstr_terminated by assumption.
    destruct (Z.ltb_spec (1 + Z.of_nat (length acc) - 1) 0); [lia|].
    rewrite to_size_t_small, to_int_small by (unfold INT_MAX in *; lia).
    replace (Z.to_nat (1 + Z.of_nat (length acc) + Z.of_nat (length line)))
      with (length acc + length line + 1)%nat by lia.
    replace (Z.to_nat (1 + Z.of_nat (length acc) - 1))
      with (length acc) by lia.
    rewrite grow_block by assumption.
    replace (1 + Z.of_nat (length acc) + Z.of_nat (length line))
      with (1 + Z.of_nat (length (acc ++ line)))
      by (rewrite length_app; lia).
    edestruct (IH rest Hlt (acc ++ line)) as (reads & -> & Hcat);
      [ exact Hrest | left; reflexivity | exact Hgrants
      | rewrite length_app; lia | ].
    exists (line :: reads). split.
    + f_equal.
      * rewrite <- Hsplit.
        destruct rest; [now rewrite !app_nil_r | now rewrite !app_assoc].
      * now tidy.
    + simpl. now rewrite Hcat.
Qed.

End Engine.

Section EngineClaims.

Variable o : os.

Lemma cd_block : strcpy_at (malloc o 1) 0 [NUL; NUL] = [NUL].
Proof. reflexivity. Qed.

Lemma is_cd_prefix (command : list byte) :
  is_cd command = true <-> firstn 3 command = lit "cd ".
Proof.
  unfold is_cd.
  destruct command as [|a [|b [|c rest]]]; cbn [nth firstn].
  - split; discriminate.
  - split; [|discriminate]. rewrite andb_false_r. discriminate.
  - split; [|discriminate]. rewrite andb_false_r. discriminate.
  - split.
    + intros H. apply andb_prop in H as [H Hc]. apply andb_prop in H as [Ha Hb].
      apply Ascii.eqb_eq in Ha, Hb, Hc. now subst.
    + intros H. injection H as -> -> ->. reflexivity.
Qed.

Lemma run_subprocess_fits (input command : list byte) (p : proc) :
  Z.of_nat (strlen input) <= pipe_capacity o ->
  run_subprocess o input command p =
  match spawn o (cwd p) (cstr command) (cstr input) with
  | None => (perror (lit "popen") ;; parent <- getppid ;; kill parent ;; exit 1)
              (launched input command p)
  | Some stream =>
      (output <- read_output o stream None 1 ;;
       emit PipeCloseRead ;; emit Pclose ;; ret output)
        (launched input command p)
  end.
Proof.
  intros Hfit. unfold run_subprocess, launched.
  destruct (Z.ltb_spec (pipe_capacity o) (Z.of_nat (strlen input))); [lia|].
  rewrite !bind_emit, bind_getcwd. cbn [cwd with_trace].
  tidy.
  cbn [app]. destruct (spawn o (cwd p) (cstr command) (cstr input));
    reflexivity.
Qed.

(** What the subprocess branch does once the input is in the pipe. *)
Lemma run_subprocess_launches (input command : list byte) (p : proc) :
  Z.of_nat (strlen input) <= pipe_capacity o ->
  exists out events,
    run_subprocess o input command p =
    (out, with_trace p (trace p ++
            [PipeWrite (cstr input); PipeCloseWrite; Dup2Stdin;
             Popen (cstr command)] ++ events)).
Proof.
  intros Hfit. rewrite run_subprocess_fits by assumption.
  destruct (spawn o (cwd p) (cstr command) (cstr input)) as [stream|].
  - destruct (read_output_frame o stream None 1 (launched input command p))
      as (out & events & E).
    unfold bind at 1. rewrite E. unfold launched.
    rewrite with_trace_twice, trace_with_trace.
    destruct out as [output|code| | |].
    + exists (Ret output), (events ++ [PipeCloseRead; Pclose]).
      rewrite !bind_emit. unfold ret.
      now tidy.
    + exists (Exit code), events. now rewrite <- !app_assoc.
    + exists Undefined, events. now rewrite <- !app_assoc.
    + exists Blocked, events. now rewrite <- !app_assoc.
    + exists Killed, events. now rewrite <- !app_assoc.
  - exists (Exit 1), [Perror (lit "popen"); Kill (ppid p)].
    unfold perror, kill, exit, launched.
    rewrite bind_emit, bind_getppid, bind_emit.
    cbn [ppid with_trace].
    now tidy.
Qed.

(** A command that prints nothing leaves the null pointer [output] started
    as. *)
Lemma run_subprocess_silent (input command : list byte) (p : proc) :
  Z.of_nat (strlen input) <= pipe_capacity o ->
  spawn o (cwd p) (cstr command) (cstr input) = Some [] ->
  run_subprocess o input command p =
  (Ret None,
   with_trace p (trace p ++
     [PipeWrite (cstr input); PipeCloseWrite; Dup2Stdin; Popen (cstr command);
      PipeCloseRead; Pclose])).
Proof.
  intros Hfit Hspawn. rewrite run_subprocess_fits by assumption.
  rewrite Hspawn, read_output_step. unfold launched.
  unfold fgets. rewrite bind_ret, !bind_emit. unfold ret.
  now tidy.
Qed.

End EngineClaims.

(** C3, as the code has it.  For a command that is not the built-in, an
    input without NUL that fits the pipe and a subprocess that starts and
    prints something, without NUL and short enough for an [int] count, with
    memory granted: the engine writes the whole input to the pipe, closes
    the pipe's write end, makes the pipe standard input and starts the
    command, all before it reads any output, and it returns exactly what the
    subprocess printed, newlines included. *)
Theorem engine_returns_output (o : os) (text command out : list byte)
    (p : proc) :
  is_cd command = false ->
  nul_free text ->
  Z.of_nat (length text) <= pipe_capacity o ->
  spawn o (cwd p) (cstr command) text = Some out ->
  (forall n, grants o n = true) ->
  out <> [] -> nul_free out -> Z.of_nat (length out) < INT_MAX ->
  exists reads,
    execute_on_current_node o (text ++ [NUL]) command p =
    (Ret (Some (out ++ [NUL])),
     with_trace p (trace p ++
       [PipeWrite text; PipeCloseWrite; Dup2Stdin; Popen (cstr command)] ++
       map Fgets reads ++ [PipeCloseRead; Pclose])) /\
    concat reads = out.
Proof.
  intros Hcd Htext Hfit Hspawn Hgrants Hout Hfree Hmax.
  assert (Hc : cstr (text ++ [NUL]) = text) by now apply cstr_terminated.
  unfold execute_on_current_node. rewrite Hcd.
  rewrite run_subprocess_fits by (unfold strlen; rewrite Hc; lia).
  rewrite Hc, Hspawn.
  destruct (read_output_gathers o out [] None
              (launched (text ++ [NUL]) command p) Hfree)
    as (reads & E & Hcat);
    [ right; split; reflexivity | exact Hgrants | simpl length; lia | ].
  change (1 + Z.of_nat (length (@nil byte))) with 1 in E.
  exists reads. split; [|exact Hcat].
  rewrite (bind_returns _ _ _ _ _ E), !bind_emit. unfold ret, launched.
  rewrite !with_trace_twice, !trace_with_trace, Hc.
  destruct out as [|c out']; [contradiction|].
  cbn [app]. now rewrite <- !app_assoc.
Qed.

(** C5. For a command of the form [cd <path>] whose [chdir] fails, the
    working directory is left as it was, the result is the empty string,
    and the engine returns: nothing is signalled and the process does not
    exit; the failure is only reported on the console. *)
Theorem cd_failure_is_swallowed (o : os) (input command : list byte)
    (p : proc) :
  is_cd command = true ->
  chdir_to o (cwd p) (cstr (skipn 3 command)) = None ->
  exists block after,
    execute_on_current_node o input command p = (Ret (Some block), after) /\
    cstr block = [] /\
    cwd after = cwd p /\
    trace after = trace p ++ [Perror (lit "chdir");
                              Print (lit "Couldn't change directory." ++ [LF])].
Proof.
  intros Hcd Hfail.
  exists [NUL],
    (with_trace p (trace p ++ [Perror (lit "chdir");
                               Print (lit "Couldn't change directory." ++ [LF])])).
  unfold execute_on_current_node. rewrite Hcd. unfold change_directory.
  rewrite bind_getcwd, Hfail, cd_block.
  unfold perror, printf. rewrite bind_assoc, !bind_emit. unfold ret.
  tidy.
  repeat split.
Qed.

(** C9. A command is taken for the built-in exactly when its first three
    bytes are c, d and a space.  The bare word [cd], and [cd] followed by
    any byte other than a space, go the way of every other command: into
    the pipe and to [popen]. *)
Theorem cd_needs_its_space (o : os) (input command : list byte) :
  (is_cd command = true <-> firstn 3 command = lit "cd ") /\
  (firstn 3 command = lit "cd " ->
   execute_on_current_node o input command = change_directory o command) /\
  (firstn 3 command <> lit "cd " ->
   execute_on_current_node o input command = run_subprocess o input command) /\
  (forall p, Z.of_nat (strlen input) <= pipe_capacity o ->
   exists out events,
     execute_on_current_node o input (lit "cd" ++ [NUL]) p =
     (out, with_trace p (trace p ++
        [PipeWrite (cstr input); PipeCloseWrite; Dup2Stdin;
         Popen (lit "cd")] ++ events))) /\
  (forall x rest p,
   x <> " "%char -> Z.of_nat (strlen input) <= pipe_capacity o ->
   exists out events,
     execute_on_current_node o input (lit "cd" ++ x :: rest) p =
     (out, with_trace p (trace p ++
        [PipeWrite (cstr input); PipeCloseWrite; Dup2Stdin;
         Popen (cstr (lit "cd" ++ x :: rest))] ++ events))).
Proof.
  split; [apply is_cd_prefix|]. split; [|split; [|split]].
  - intros H. apply is_cd_prefix in H.
    unfold execute_on_current_node. now rewrite H.
  - intros H. unfold execute_on_current_node.
    destruct (is_cd command) eqn:E; [|reflexivity].
    apply is_cd_prefix in E. contradiction.
  - intros p Hfit.
    exact (run_subprocess_launches o input (lit "cd" ++ [NUL]) p Hfit).
  - intros x rest p Hx Hfit.
    unfold execute_on_current_node.
    replace (is_cd (lit "cd" ++ x :: rest)) with false.
    + now apply run_subprocess_launches.
    + symmetry. unfold is_cd. cbn [lit String.list_ascii_of_string app nth].
      destruct (Ascii.eqb_spec x " "); [contradiction|].
      now rewrite andb_false_r.
Qed.

(** ** The request channel *)

Section Requests.

Variable o : os.

Lemma decode_filled (hdr : list byte) :
  length hdr = 6%nat ->
  header_tag (filled o 6 (Some hdr)) = header_tag hdr /\
  header_size (filled o 6 (Some hdr)) = header_size hdr.
Proof.
  intros Hlen. rewrite filled_full by assumption.
  destruct hdr as [|t digits]; [discriminate|].
  split; [reflexivity|]. unfold header_size. cbn [app skipn].
  apply atoi_nul.
Qed.

Lemma header_str_announces (tag : byte) (n : nat) :
  is_tag tag -> Z.of_nat n <= 99999 ->
  announces tag n (header_str [tag] (Z.of_nat n)).
Proof.
  intros Htag Hn. assert (Hs : 0 <= Z.of_nat n <= 99999) by lia.
  assert (Hl : length (header_str [tag] (Z.of_nat n)) = 6%nat).
  { rewrite header_str_length by assumption.
    destruct Htag as [-> | [-> | ->]]; reflexivity. }
  destruct (decode_header_str o tag (Z.of_nat n) Htag Hs) as [Ht Hz].
  destruct (decode_filled _ Hl) as [Et Ez].
  rewrite Et in Ht. rewrite Ez in Hz. now repeat split.
Qed.

(** Headers and bodies that arrive whole are read as command header,
    input header, input, command. *)
Lemma receive_request_whole (cmd_hdr inp_hdr inp cmd : list byte)
    (later : list arrival) (p : proc) :
  announces "c" (length cmd) cmd_hdr ->
  announces "i" (length inp) inp_hdr ->
  inbound (conn p) = pieces (cmd_hdr ++ inp_hdr ++ inp ++ cmd) later ->
  receive_request o p =
  (Ret (inp ++ [NUL], cmd ++ [NUL]), with_inbound p later).
Proof.
  intros (Hcl & Hct & Hcs) (Hil & Hit & His) Hin.
  destruct (decode_filled cmd_hdr Hcl) as [Ect Ecs].
  destruct (decode_filled inp_hdr Hil) as [Eit Eis].
  unfold receive_request.
  assert (R1 : read 6 p =
          (Ret (Some cmd_hdr),
           with_inbound p (pieces (inp_hdr ++ inp ++ cmd) later)))
    by (rewrite <- Hcl; now apply read_pieces).
  rewrite (bind_returns _ _ _ _ _ R1).
  assert (R2 : read 6 (with_inbound p (pieces (inp_hdr ++ inp ++ cmd) later)) =
          (Ret (Some inp_hdr), with_inbound p (pieces (inp ++ cmd) later)))
    by (rewrite <- Hil; apply read_pieces_next).
  rewrite (bind_returns _ _ _ _ _ R2).
  rewrite Eit, Eis, Hit, His, Ect, Ecs, Hct, Hcs.
  cbn [Ascii.eqb Bool.eqb].
  destruct (Z.ltb_spec (Z.of_nat (length inp)) 0); [lia|].
  destruct (Z.ltb_spec (Z.of_nat (length cmd)) 0); [lia|].
  rewrite !Nat2Z.id.
  assert (R3 : read (length inp) (with_inbound p (pieces (inp ++ cmd) later)) =
          (Ret (Some inp), with_inbound p (pieces cmd later)))
    by apply read_pieces_next.
  rewrite (bind_returns _ _ _ _ _ R3).
  assert (R4 : read (length cmd) (with_inbound p (pieces cmd later)) =
          (Ret (Some cmd), with_inbound p later)).
  { pose proof (read_pieces_next cmd [] later p) as R.
    now rewrite app_nil_r in R. }
  rewrite (bind_returns _ _ _ _ _ R4).
  now rewrite !filled_full by reflexivity.
Qed.

(** A result of at most 99999 bytes goes out as one frame when the
    connection takes it. *)
Lemma send_output_frame (block : list byte) (q : proc) :
  Z.of_nat (strlen block) <= 99999 ->
  accepts (conn q) = [] ->
  send_output (Some block) q =
  (Ret tt,
   with_trace q (trace q ++
     [Sent (header_str (lit "o") (Z.of_nat (strlen block)) ++ cstr block)])).
Proof.
  intros Hlen Hacc. unfold send_output.
  assert (Hs : 0 <= Z.of_nat (strlen block) <= 99999) by lia.
  rewrite to_int_small by (unfold INT_MAX; lia).
  rewrite (bind_returns _ _ _ _ _ (get_header_str_small _ _ q Hs)).
  unfold message.
  rewrite (cstr_of_nul_free (header_str (lit "o") _))
    by (apply (header_str_nul_free "o"); [right; left; reflexivity | exact Hs]).
  rewrite (bind_returns _ _ _ _ _ (write_whole _ q Hacc)).
  destruct (Z.ltb_spec (Z.of_nat
    (length (header_str (lit "o") (Z.of_nat (strlen block)) ++ cstr block))) 0);
    [lia|].
  rewrite Z.ltb_irrefl. reflexivity.
Qed.

(** Neither branch of the engine touches the connection. *)
Lemma engine_keeps_conn (input command : list byte) (p : proc) :
  conn (snd (execute_on_current_node o input command p)) = conn p.
Proof.
  unfold execute_on_current_node. destruct (is_cd command).
  - unfold change_directory. rewrite bind_getcwd.
    destruct (chdir_to o (cwd p) (cstr (skipn 3 command))); reflexivity.
  - unfold run_subprocess.
    destruct (Z.ltb_spec (pipe_capacity o) (Z.of_nat (strlen input)));
      [reflexivity|].
    destruct (run_subprocess_launches o input command p)
      as (out & events & E); [assumption|].
    unfold run_subprocess in E.
    destruct (Z.ltb_spec (pipe_capacity o) (Z.of_nat (strlen input)));
      [lia|].
    now rewrite E.
Qed.

End Requests.

(** A request that arrives whole.  When the command header, the input
    header, the input and the command arrive in one piece, the headers being six bytes that
    carry the tags c and i and the two lengths (c00005 and i00003 before xyz
    and abcde, say), the agent reads them in that order and calls the engine
    with that input and that command; and when the engine returns a result
    of at most 99999 bytes and the connection takes the reply, the reply is
    one frame: a six-byte header with the tag o and the length of the
    result, then the result. *)
Lemma request_turn_whole (o : os) (serv_sock : socket)
    (cmd_hdr inp_hdr inp cmd : list byte) (later : list arrival) (p : proc) :
  announces "c" (length cmd) cmd_hdr ->
  announces "i" (length inp) inp_hdr ->
  inbound serv_sock = pieces (cmd_hdr ++ inp_hdr ++ inp ++ cmd) later ->
  accepts serv_sock = [] ->
  let serving := with_conn p (mkSocket later []) in
  request_turn o serv_sock p =
  (output <- execute_on_current_node o (inp ++ [NUL]) (cmd ++ [NUL]) ;;
   send_output output) serving /\
  forall block q,
    execute_on_current_node o (inp ++ [NUL]) (cmd ++ [NUL]) serving =
    (Ret (Some block), q) ->
    Z.of_nat (strlen block) <= 99999 ->
    exists hdr,
      request_turn o serv_sock p =
      (Ret tt, with_trace q (trace q ++ [Sent (hdr ++ cstr block)])) /\
      announces "o" (strlen block) hdr.
Proof.
  intros Hc Hi Hin Hacc serving.
  assert (Hturn : request_turn o serv_sock p =
    (output <- execute_on_current_node o (inp ++ [NUL]) (cmd ++ [NUL]) ;;
     send_output output) serving).
  { unfold request_turn.
    change ((set_conn serv_sock ;;
             request <- receive_request o ;;
             output <- execute_on_current_node o (fst request) (snd request) ;;
             send_output output) p)
      with ((request <- receive_request o ;;
             output <- execute_on_current_node o (fst request) (snd request) ;;
             send_output output) (with_conn p serv_sock)).
    rewrite (bind_returns _ _ _ _ _
               (receive_request_whole o cmd_hdr inp_hdr inp cmd later
                  (with_conn p serv_sock) Hc Hi Hin)).
    unfold with_inbound, with_conn. cbn [pid ppid child_pid cwd conn trace
                                         accepts fst snd].
    now rewrite Hacc. }
  split; [exact Hturn|].
  intros block q Hrun Hlen. rewrite Hturn.
  exists (header_str (lit "o") (Z.of_nat (strlen block))).
  split.
  - rewrite (bind_returns _ _ _ _ _ Hrun).
    apply send_output_frame; [assumption|].
    pose proof (engine_keeps_conn o (inp ++ [NUL]) (cmd ++ [NUL]) serving) as K.
    rewrite Hrun in K. cbn [snd] in K. now rewrite K.
  - apply (header_str_announces o "o"); [right; left; reflexivity | exact Hlen].
Qed.

(** C4. For a length of 100000 or more [get_header_str] refuses to make a
    header: it prints its complaint, signals the other process and exits
    with status 1, and has written nothing.  So the turn of either handler
    that was to send such a payload (its length reaches the encoder as an
    [int]) ends with that exit and with no byte put on its connection. *)
Theorem long_payload_is_refused (o : os) (co : list byte) (size : Z)
    (p : proc) :
  100000 <= size ->
  let refusal := [Print (lit "output is too long, exiting." ++ [LF]);
                  Kill (header_victim p)] in
  get_header_str co size p = (Exit 1, with_trace p (trace p ++ refusal)) /\
  sent refusal = [] /\
  (forall block,
     Z.of_nat (strlen block) = size -> size <= INT_MAX ->
     send_output (Some block) p = (Exit 1, with_trace p (trace p ++ refusal))) /\
  (forall bytes,
     Z.of_nat (length bytes) - 1 = size -> size <= INT_MAX ->
     exists events,
       shell_turn o (Line bytes) p = (Exit 1, with_trace p (trace p ++ events)) /\
       sent events = []).
Proof.
  intros Hsize refusal. split; [|split; [|split]].
  - apply get_header_str_large. lia.
  - reflexivity.
  - intros block Hlen Hmax. unfold send_output.
    rewrite Hlen, to_int_small by (unfold INT_MAX in *; lia).
    unfold bind at 1. rewrite get_header_str_large by lia. reflexivity.
  - intros bytes Hlen Hmax. unfold shell_turn, cyan, reset, green, printf.
    rewrite !bind_emit. cbn [line_length].
    replace (Z.of_nat (length bytes)) with (size + 1) by lia.
    destruct (Z.leb_spec (size + 1) 0); [lia|].
    destruct (Z.eqb_spec (size + 1) 1); [lia|].
    cbn [orb andb]. rewrite bind_get_child_pid.
    destruct (streq _ (lit "exit")).
    + eexists. rewrite !bind_emit. unfold kill, exit. rewrite bind_emit.
      tidy.
      split; reflexivity.
    + replace (size + 1 - 1) with size by lia.
      rewrite to_int_small by (unfold INT_MAX in *; lia).
      unfold bind at 1. rewrite get_header_str_large by lia.
      eexists.
      tidy.
      split; reflexivity.
Qed.

(** ** The shell and the two processes *)

Section Agent.

Variable o : os.

Lemma news_with_trace (p : proc) (events : list event) :
  news p (with_trace p (trace p ++ events)) = events.
Proof.
  unfold news. rewrite trace_with_trace.
  now rewrite skipn_app, skipn_all, Nat.sub_diag.
Qed.

Lemma shell_turn_no_line (p : proc) :
  shell_turn o NoLine p = (Ret tt, with_trace p (trace p ++ prompt)).
Proof.
  unfold shell_turn, cyan, reset, printf. rewrite !bind_emit.
  cbn [line_length Z.leb Z.compare orb]. unfold ret, prompt.
  now tidy.
Qed.

Lemma shell_turn_exit (p : proc) :
  shell_turn o (Line (lit "exit" ++ [LF])) p =
  (Exit 1, with_trace p (trace p ++ prompt ++ farewell (child_pid p))).
Proof.
  transitivity
    (@Exit unit 1,
     with_trace p
       (((((((trace p ++ [Print (ESC :: lit "[1;36m")]) ++
             [Print (LF :: lit "[shell]-> ")]) ++
            [Print (ESC :: lit "[0m")]) ++
           [Print (ESC :: lit "[1;32m")]) ++
          [Print (LF :: lit "EXITING SHELL..." ++ [LF; LF])]) ++
         [Print (ESC :: lit "[0m")]) ++
        [Kill (child_pid p)])); [reflexivity|].
  unfold prompt, farewell. now rewrite <- !app_assoc.
Qed.

Lemma shell_handler_no_lines (n : nat) (p : proc) :
  shell_handler o (repeat NoLine n) p =
  (Ret tt, with_trace p (trace p ++ concat (repeat prompt n))).
Proof.
  revert p. induction n as [|n IH]; intros p.
  - cbn [repeat shell_handler concat]. unfold ret.
    now rewrite with_trace_nil.
  - cbn [repeat shell_handler concat].
    rewrite (bind_returns _ _ _ _ _ (shell_turn_no_line p)), IH.
    now tidy.
Qed.

Lemma prompts_signal_nobody (n : nat) (victim : proc) :
  signalled (concat (repeat prompt n)) victim = false.
Proof. induction n as [|n IH]; [reflexivity | exact IH]. Qed.

Lemma step_no_line (a : agent) :
  shell_status a = Running ->
  step o (ShellTurn NoLine) a =
  mkAgent (with_trace (shell a) (trace (shell a) ++ prompt)) Running
          (requests a) (requests_status a).
Proof.
  intros Hrun. unfold step. rewrite Hrun, shell_turn_no_line.
  now rewrite news_with_trace.
Qed.

Lemma run_cons (t : turn) (turns : list turn) (a : agent) :
  run o (t :: turns) a = run o turns (step o t a).
Proof. reflexivity. Qed.

Lemma run_no_lines (n : nat) (a : agent) :
  shell_status a = Running ->
  run o (repeat (ShellTurn NoLine) n) a =
  mkAgent (with_trace (shell a)
             (trace (shell a) ++ concat (repeat prompt n)))
          Running (requests a) (requests_status a).
Proof.
  revert a. induction n as [|n IH]; intros a Hrun.
  - cbn [repeat concat]. rewrite with_trace_nil.
    destruct a; simpl in *; now subst.
  - cbn [repeat concat].
    rewrite run_cons, step_no_line by assumption.
    rewrite IH by reflexivity. cbn [shell requests requests_status].
    now tidy.
Qed.

(** A process that has stopped takes no more turns. *)
Lemma run_stopped (turns : list turn) (a : agent) :
  shell_status a <> Running -> requests_status a <> Running ->
  run o turns a = a.
Proof.
  intros Hs Hr. induction turns as [|t turns IH]; [reflexivity|].
  rewrite run_cons.
  replace (step o t a) with a; [exact IH|].
  destruct t; unfold step.
  - destruct (shell_status a); congruence.
  - destruct (requests_status a); congruence.
Qed.

End Agent.

(** C8. On the line [exit] the shell handler signals the child and exits
    with status 1, which is not zero, and writes nothing on its connection;
    the signal makes the child run [sigusr1_handler], which exits with
    status 1 as well; and from then on, whatever arrives on either side,
    neither process takes another turn, so nothing more is sent. *)
Theorem exit_line_stops_the_agent (o : os) (a : agent) :
  forked a -> shell_status a = Running -> requests_status a = Running ->
  let a' := step o (ShellTurn (Line (lit "exit" ++ [LF]))) a in
  shell_status a' = Exited 1 /\
  requests_status a' = Exited 1 /\
  1 <> 0 /\
  In (Kill (pid (requests a))) (news (shell a) (shell a')) /\
  sent (news (shell a) (shell a')) = [] /\
  requests a' = requests a /\
  forall turns, run o turns a' = a'.
Proof.
  intros (Hchild & _ & _) Hs Hr a'.
  assert (Ha : a' = mkAgent
            (with_trace (shell a)
               (trace (shell a) ++ prompt ++ farewell (pid (requests a))))
            (Exited 1) (requests a) (Exited 1)).
  { unfold a', step. rewrite Hs, shell_turn_exit, news_with_trace, Hchild, Hr.
    cbn [status_after]. f_equal.
    unfold signalled, prompt, farewell, reaches.
    cbn [existsb app]. now rewrite Z.eqb_refl. }
  rewrite Ha. cbn [shell shell_status requests requests_status].
  rewrite news_with_trace.
  repeat split.
  - discriminate.
  - unfold prompt, farewell. cbn [app In]. tauto.
  - intros turns. apply run_stopped; discriminate.
Qed.

(** C10. A [getline] that returns -1 is treated as an empty line.  With the
    operator's input closed the shell handler goes round for ever: after
    any number of turns it is still running and has only printed that many
    prompts; it has signalled nobody and has not exited, and the agent
    lives on. *)
Theorem closed_input_keeps_prompting (o : os) (n : nat) (p : proc)
    (a : agent) :
  shell_turn o NoLine p = shell_turn o (Line [LF]) p /\
  shell_handler o (repeat NoLine n) p =
  (Ret tt, with_trace p (trace p ++ concat (repeat prompt n))) /\
  (forall victim, signalled (concat (repeat prompt n)) victim = false) /\
  (shell_status a = Running ->
   run o (repeat (ShellTurn NoLine) n) a =
   mkAgent (with_trace (shell a)
              (trace (shell a) ++ concat (repeat prompt n)))
           Running (requests a) (requests_status a)).
Proof.
  split; [reflexivity|]. split; [apply shell_handler_no_lines|].
  split; [intros victim; apply prompts_signal_nobody|].
  apply run_no_lines.
Qed.

(** ** The claims on the example machine *)

(** C1 on the frame [o00005hello]. *)
Lemma header_round_trip_hello :
  let hdr := header_str ["o"%char] (Z.of_nat (length (lit "hello"))) in
  get_header_str ["o"%char] (Z.of_nat (length (lit "hello"))) lab_child =
  (Ret hdr, lab_child) /\
  length hdr = 6%nat /\
  read 6 (serving lab_parent [Data (lit "o00005hello")]) =
  (Ret (Some hdr),
   with_inbound (serving lab_parent [Data (lit "o00005hello")])
     (pieces (lit "hello") [])) /\
  header_tag (filled lab 6 (Some hdr)) = "o"%char /\
  header_size (filled lab 6 (Some hdr)) = Z.of_nat (length (lit "hello")) /\
  read (Z.to_nat (header_size (filled lab 6 (Some hdr))))
       (with_inbound (serving lab_parent [Data (lit "o00005hello")])
          (pieces (lit "hello") []))
  = (Ret (Some (lit "hello")),
     with_inbound (serving lab_parent [Data (lit "o00005hello")]) []) /\
  cstr (filled lab (length (lit "hello")) (Some (lit "hello"))) = lit "hello".
Proof.
  apply (header_round_trip lab "o"%char (lit "hello") [] lab_child
           (serving lab_parent [Data (lit "o00005hello")])).
  - right. left. reflexivity.
  - repeat constructor; discriminate.
  - vm_compute. discriminate.
  - reflexivity.
Defined.

(** C1 as it was stated, on the payload [a], NUL, [b].  The shell handler
    announces the three bytes [getline] counted and appends the one byte
    [strcat] copies; the request handler would announce one byte for such a
    block.  Reading the three announced bytes does not give the payload
    back. *)
Lemma nul_breaks_the_frame :
  let payload := ["a"%char; NUL; "b"%char] in
  sent (trace (snd (shell_turn lab (Line (payload ++ [LF]))
                      (serving lab_parent [Data (lit "o00000")]))))
  = lit "c00003a" /\
  message (header_str (lit "o") (Z.of_nat (strlen (payload ++ [NUL]))))
          (payload ++ [NUL])
  = lit "o00001a" /\
  fst ((read 6 ;; read 3) (serving lab_child [Data (lit "c00003a")]))
  = Ret (Some ["a"%char]) /\
  ["a"%char] <> payload.
Proof. vm_compute. repeat split. discriminate. Qed.

(** Headers of seven bytes, one digit too many.  The second read of six
    bytes gives [5i0000], which does not start with i; the agent reports an
    error, signals its parent and exits.  The engine is not called and
    nothing is sent. *)
Lemma seven_byte_headers_are_fatal :
  request_turn lab (mkSocket [Data (lit "c000005i000003xyzabcde")] [])
    lab_child =
  (Exit 1,
   with_trace (serving lab_child [Data (lit "03xyzabcde")])
     [Print (LF :: lit "Possible application or network error detected. Exiting application." ++ [LF]);
      Kill 100]).
Proof. vm_compute. reflexivity. Qed.

(** [request_turn_whole] on the headers [c00005] and [i00003] before [xyz]
    and [abcde], and on [cat] with the input [hello]. *)
Lemma request_turn_whole_examples :
  request_turn lab (mkSocket [Data (lit "c00005i00003xyzabcde")] []) lab_child
  = (output <- execute_on_current_node lab (lit "xyz" ++ [NUL])
                 (lit "abcde" ++ [NUL]) ;;
     send_output output) (serving lab_child []) /\
  exists hdr,
    request_turn lab (mkSocket [Data (lit "c00003i00006hello" ++ LF :: lit "cat")] [])
      lab_child =
    (Ret tt,
     with_trace lab_child
       ([PipeWrite (lit "hello" ++ [LF]); PipeCloseWrite; Dup2Stdin;
         Popen (lit "cat"); Fgets (lit "hello" ++ [LF]); PipeCloseRead;
         Pclose] ++ [Sent (hdr ++ lit "hello" ++ [LF])])) /\
    announces "o" 6 hdr.
Proof.
  split.
  - apply (request_turn_whole lab
             (mkSocket [Data (lit "c00005i00003xyzabcde")] [])
             (lit "c00005") (lit "i00003") (lit "xyz") (lit "abcde") []
             lab_child); repeat split; reflexivity.
  - apply (proj2 (request_turn_whole lab
             (mkSocket [Data (lit "c00003i00006hello" ++ LF :: lit "cat")] [])
             (lit "c00003") (lit "i00006") (lit "hello" ++ [LF]) (lit "cat") []
             lab_child
             (conj eq_refl (conj eq_refl eq_refl))
             (conj eq_refl (conj eq_refl eq_refl))
             eq_refl eq_refl)
           (lit "hello" ++ [LF; NUL])
           (with_trace lab_child
              [PipeWrite (lit "hello" ++ [LF]); PipeCloseWrite; Dup2Stdin;
               Popen (lit "cat"); Fgets (lit "hello" ++ [LF]); PipeCloseRead;
               Pclose])).
    + vm_compute. reflexivity.
    + vm_compute. discriminate.
Defined.

(** C2 on its own example: the headers [c00005] and [i00003] before [xyz]
    and [abcde].  The agent reads the command header, the input header, the
    three bytes of the input and the five of the command, and calls the
    engine with that input and that command: so far as the claim says.
    The command prints nothing on standard output (there is no such
    command, and what the shell says of it goes to standard error), so the
    loop of the engine is never entered, [output] is still the null pointer
    when it is returned, and the handler passes it to [strlen]: no reply is
    sent.  With [cat] for the command the reply is the one frame the claim
    describes. *)
Theorem request_exchange_gets_no_reply :
  receive_request lab (serving lab_child [Data (lit "c00005i00003xyzabcde")]) =
  (Ret (lit "xyz" ++ [NUL], lit "abcde" ++ [NUL]), serving lab_child []) /\
  spawn lab (cwd lab_child) (lit "abcde") (lit "xyz") = Some [] /\
  execute_on_current_node lab (lit "xyz" ++ [NUL]) (lit "abcde" ++ [NUL])
    lab_child =
  (Ret None,
   with_trace lab_child
     [PipeWrite (lit "xyz"); PipeCloseWrite; Dup2Stdin; Popen (lit "abcde");
      PipeCloseRead; Pclose]) /\
  request_turn lab (mkSocket [Data (lit "c00005i00003xyzabcde")] []) lab_child =
  (Undefined,
   with_trace lab_child
     [PipeWrite (lit "xyz"); PipeCloseWrite; Dup2Stdin; Popen (lit "abcde");
      PipeCloseRead; Pclose]) /\
  request_turn lab (mkSocket [Data (lit "c00003i00003xyzcat")] []) lab_child =
  (Ret tt,
   with_trace lab_child
     [PipeWrite (lit "xyz"); PipeCloseWrite; Dup2Stdin; Popen (lit "cat");
      Fgets (lit "xyz"); PipeCloseRead; Pclose; Sent (lit "o00003xyz")]).
Proof. vm_compute. repeat split. Qed.

(** C3 as it was stated.  A NUL the subprocess prints ends what is kept of
    that chunk of its output; a NUL in the input ends what is written to the
    pipe; and an input longer than the pipe holds is never written whole:
    the engine stays in the write. *)
Lemma engine_loses_bytes :
  (is_cd (lit "printf 'a\0b'" ++ [NUL]) = false /\
   spawn lab (cwd lab_child) (lit "printf 'a\0b'") [] =
   Some ["a"%char; NUL; "b"%char] /\
   fst (execute_on_current_node lab [NUL] (lit "printf 'a\0b'" ++ [NUL])
          lab_child) = Ret (Some ["a"%char; NUL])) /\
  (is_cd (lit "cat" ++ [NUL]) = false /\
   trace (snd (execute_on_current_node lab
                 (["x"%char; NUL; "y"%char] ++ [NUL])
                 (lit "cat" ++ [NUL]) lab_child)) =
   [PipeWrite ["x"%char]; PipeCloseWrite; Dup2Stdin; Popen (lit "cat");
    Fgets ["x"%char]; PipeCloseRead; Pclose]) /\
  (pipe_capacity lab = 65536 /\
   fst (execute_on_current_node lab
          (repeat "x"%char (Z.to_nat 65537) ++ [NUL])
          (lit "cat" ++ [NUL]) lab_child) = Blocked).
Proof. vm_compute. repeat split. Qed.

(** C3 on [cat] with the input [hello] and a newline. *)
Lemma engine_returns_output_cat :
  exists reads,
    execute_on_current_node lab ((lit "hello" ++ [LF]) ++ [NUL])
      (lit "cat" ++ [NUL]) lab_child =
    (Ret (Some ((lit "hello" ++ [LF]) ++ [NUL])),
     with_trace lab_child (trace lab_child ++
       [PipeWrite (lit "hello" ++ [LF]); PipeCloseWrite; Dup2Stdin;
        Popen (cstr (lit "cat" ++ [NUL]))] ++
       map Fgets reads ++ [PipeCloseRead; Pclose])) /\
    concat reads = lit "hello" ++ [LF].
Proof.
  apply (engine_returns_output lab (lit "hello" ++ [LF]) (lit "cat" ++ [NUL])
           (lit "hello" ++ [LF]) lab_child).
  - reflexivity.
  - repeat constructor; discriminate.
  - vm_compute. discriminate.
  - reflexivity.
  - reflexivity.
  - discriminate.
  - repeat constructor; discriminate.
  - vm_compute. reflexivity.
Defined.

(** C4 on a length of 100000. *)
Lemma long_payload_is_refused_100000 :
  let refusal := [Print (lit "output is too long, exiting." ++ [LF]);
                  Kill (header_victim lab_child)] in
  get_header_str (lit "o") 100000 lab_child =
  (Exit 1, with_trace lab_child (trace lab_child ++ refusal)) /\
  sent refusal = [] /\
  (forall block,
     Z.of_nat (strlen block) = 100000 -> 100000 <= INT_MAX ->
     send_output (Some block) lab_child =
     (Exit 1, with_trace lab_child (trace lab_child ++ refusal))) /\
  (forall bytes,
     Z.of_nat (length bytes) - 1 = 100000 -> 100000 <= INT_MAX ->
     exists events,
       shell_turn lab (Line bytes) lab_child =
       (Exit 1, with_trace lab_child (trace lab_child ++ events)) /\
       sent events = []).
Proof.
  apply (long_payload_is_refused lab (lit "o") 100000 lab_child).
  vm_compute. discriminate.
Defined.

(** C5 on [cd /does/not/exist]. *)
Lemma cd_failure_is_swallowed_nowhere :
  exists block after,
    execute_on_current_node lab [NUL] (lit "cd /does/not/exist" ++ [NUL])
      lab_child = (Ret (Some block), after) /\
    cstr block = [] /\
    cwd after = cwd lab_child /\
    trace after = trace lab_child ++
                  [Perror (lit "chdir");
                   Print (lit "Couldn't change directory." ++ [LF])].
Proof.
  apply (cd_failure_is_swallowed lab [NUL]
           (lit "cd /does/not/exist" ++ [NUL]) lab_child); reflexivity.
Defined.

(** C6 on the command [true].  The loop is never entered, [output] is
    still the null pointer when it is returned, and the handler passes it
    to [strlen]; no frame is sent.  The branch for [cd] returns an empty
    string instead, and that goes out as [o00000]. *)
Theorem silent_command_breaks_the_reply :
  spawn lab (cwd lab_child) (lit "true") [] = Some [] /\
  execute_on_current_node lab [NUL] (lit "true" ++ [NUL]) lab_child =
  (Ret None,
   with_trace lab_child
     [PipeWrite []; PipeCloseWrite; Dup2Stdin; Popen (lit "true");
      PipeCloseRead; Pclose]) /\
  request_turn lab (mkSocket [Data (lit "c00004i00000true")] []) lab_child =
  (Undefined,
   with_trace lab_child
     [PipeWrite []; PipeCloseWrite; Dup2Stdin; Popen (lit "true");
      PipeCloseRead; Pclose]) /\
  request_turn lab (mkSocket [Data (lit "c00007i00000cd /tmp")] []) lab_child =
  (Ret tt,
   mkProc 101 100 0 (lit "/tmp") (mkSocket [] []) [Sent (lit "o00000")]).
Proof. vm_compute. repeat split. Qed.

(** C7 on reads that come short.  An input of two bytes where five were
    announced, an input read that fails, a reply of two bytes where five
    were announced, a reply header of two bytes: each time the handler goes
    on with a block that is partly what was there before, signals nobody
    and does not exit.  A header read that fails, and a write that takes
    three bytes of eight, do end the process. *)
Theorem short_reads_go_unnoticed :
  receive_request lab (serving lab_child [Data (lit "c00003i00005he")]) =
  (Ret (lit "he###" ++ [NUL], lit "###" ++ [NUL]), serving lab_child []) /\
  receive_request lab
    (serving lab_child [Data (lit "c00003i00005"); ReadFailure;
                        Data (lit "cat")]) =
  (Ret (lit "#####" ++ [NUL], lit "cat" ++ [NUL]), serving lab_child []) /\
  (let after := shell_turn lab (Line (lit "ls" ++ [LF]))
                  (serving lab_parent [Data (lit "o00005ab")]) in
   fst after = Ret tt /\ kills (trace (snd after)) = [] /\
   In (Print (LF :: lit "ab###" ++ [LF])) (trace (snd after))) /\
  (let after := shell_turn lab (Line (lit "ls" ++ [LF]))
                  (serving lab_parent [Data (lit "o0"); Data (lit "0005hello")]) in
   fst after = Ret tt /\ kills (trace (snd after)) = [] /\
   inbound (conn (snd after)) = [Data (lit "0005hello")]) /\
  receive_request lab (serving lab_child [ReadFailure]) =
  (Exit 1,
   with_trace (serving lab_child []) [Perror (lit "read"); Kill 100]) /\
  (let after := shell_turn lab (Line (lit "ls" ++ [LF]))
                  (with_conn lab_parent (mkSocket [] [Takes 3])) in
   fst after = Exit 1 /\ kills (trace (snd after)) = [101] /\
   sent (trace (snd after)) = lit "c00").
Proof. vm_compute. repeat split; tauto. Qed.

(** C8 on the example agent. *)
Lemma exit_line_stops_the_agent_lab :
  let a' := step lab (ShellTurn (Line (lit "exit" ++ [LF]))) lab_agent in
  shell_status a' = Exited 1 /\
  requests_status a' = Exited 1 /\
  1 <> 0 /\
  In (Kill (pid (requests lab_agent))) (news (shell lab_agent) (shell a')) /\
  sent (news (shell lab_agent) (shell a')) = [] /\
  requests a' = requests lab_agent /\
  forall turns, run lab turns a' = a'.
Proof.
  apply (exit_line_stops_the_agent lab lab_agent).
  - repeat split.
  - reflexivity.
  - reflexivity.
Defined.

(** C9 on the bare word [cd] with the input [hello]. *)
Lemma cd_needs_its_space_bare :
  exists out events,
    execute_on_current_node lab (lit "hello" ++ [NUL]) (lit "cd" ++ [NUL])
      lab_child =
    (out, with_trace lab_child (trace lab_child ++
       [PipeWrite (cstr (lit "hello" ++ [NUL])); PipeCloseWrite; Dup2Stdin;
        Popen (lit "cd")] ++ events)).
Proof.
  apply (proj1 (proj2 (proj2 (proj2
           (cd_needs_its_space lab (lit "hello" ++ [NUL]) [])))) lab_child).
  vm_compute. discriminate.
Defined.

(** C10 on the example agent, three turns after its input was closed. *)
Lemma closed_input_keeps_prompting_lab :
  run lab (repeat (ShellTurn NoLine) 3) lab_agent =
  mkAgent (with_trace (shell lab_agent)
             (trace (shell lab_agent) ++ concat (repeat prompt 3)))
          Running (requests lab_agent) (requests_status lab_agent).
Proof.
  apply (proj2 (proj2 (proj2
           (closed_input_keeps_prompting lab 3 lab_parent lab_agent)))).
  reflexivity.
Defined.

(** ** Signals and exits go together *)

Section Tied.

Variable T : proc -> Z -> Prop.
Hypothesis T_stable : stable T.

Lemma same_ids_refl (p : proc) : same_ids p p.
Proof. repeat split. Qed.

Lemma same_ids_trans (p q r : proc) :
  same_ids p q -> same_ids q r -> same_ids p r.
Proof. unfold same_ids. intuition congruence. Qed.

Lemma kills_app (a b : list event) : kills (a ++ b) = kills a ++ kills b.
Proof. apply flat_map_app. Qed.

Lemma tied_at_ret {A} (a : A) (p : proc) : tied_at T p (ret a).
Proof.
  intros out q E. injection E as <- <-. split; [apply same_ids_refl|].
  exists []. now rewrite app_nil_r.
Qed.

Lemma tied_at_quiet {A} (m : M A) (p : proc) :
  (exists a q events, m p = (Ret a, q) /\ same_ids p q /\
                      trace q = trace p ++ events /\ kills events = []) ->
  tied_at T p m.
Proof.
  intros (a & q & events & E & Hids & Htr & Hk) out q' E'.
  rewrite E in E'. injection E' as <- <-. split; [exact Hids|].
  now exists events.
Qed.

Lemma tied_at_emit (e : event) (p : proc) : no_kill e -> tied_at T p (emit e).
Proof.
  intros He. apply tied_at_quiet.
  exists tt, (with_trace p (trace p ++ [e])), [e].
  repeat split. destruct e; try reflexivity. contradiction.
Qed.

Lemma tied_at_undefined {A} (p : proc) : tied_at T p (@undefined A).
Proof.
  intros out q E. injection E as <- <-. split; [apply same_ids_refl|].
  exists []. now rewrite app_nil_r.
Qed.

Lemma tied_at_blocked {A} (p : proc) : tied_at T p (@blocked A).
Proof.
  intros out q E. injection E as <- <-. split; [apply same_ids_refl|].
  exists []. now rewrite app_nil_r.
Qed.

Lemma tied_at_kill_exit {A} (t : Z) (p : proc) :
  T p t -> tied_at T p (kill t ;; @exit A 1).
Proof.
  intros Ht out q E. injection E as <- <-. split; [repeat split|].
  exists [Kill t]. split; [reflexivity|]. split; [reflexivity|].
  exists [], t. repeat split. exact Ht.
Qed.

Lemma tied_at_bind {A B} (m : M A) (f : A -> M B) (p : proc) :
  tied_at T p m ->
  (forall a p', m p = (Ret a, p') -> same_ids p p' -> tied_at T p' (f a)) ->
  tied_at T p (x <- m ;; f x).
Proof.
  intros Hm Hf out q E. unfold bind in E.
  destruct (m p) as [o1 p1] eqn:Em.
  destruct (Hm o1 p1 Em) as (Hids1 & e1 & Htr1 & Hout1).
  destruct o1 as [a|code| | |]; try (injection E as <- <-; split; [exact Hids1|];
                                   exists e1; now split).
  destruct (Hf a p1 eq_refl Hids1 out q E) as (Hids2 & e2 & Htr2 & Hout2).
  split; [eapply same_ids_trans; eassumption|].
  exists (e1 ++ e2). split; [rewrite Htr2, Htr1; now rewrite app_assoc|].
  destruct out as [b|code| | |]; try (rewrite kills_app, Hout1, Hout2; reflexivity).
  destruct Hout2 as (-> & quiet & t & -> & Hq & Ht). split; [reflexivity|].
  exists (e1 ++ quiet), t. split; [now rewrite app_assoc|].
  split; [rewrite kills_app, Hout1, Hq; reflexivity|].
  eapply T_stable; eassumption.
Qed.

Lemma tied_at_read (n : nat) (p : proc) : tied_at T p (read n).
Proof.
  apply tied_at_quiet. unfold read.
  destruct n as [|n]; [|destruct (inbound (conn p)) as [|[bytes|] later]];
    eexists _, _, []; (split; [reflexivity|]); rewrite app_nil_r;
    repeat split.
Qed.

Lemma tied_at_write (msg : list byte) (p : proc) : tied_at T p (write msg).
Proof.
  unfold write.
  destruct (accepts (conn p)) as [|[|k|] later] eqn:Hacc.
  - apply tied_at_quiet. unfold write. rewrite Hacc.
    eexists _, _, [Sent msg]. repeat split.
  - apply tied_at_quiet. unfold write. rewrite Hacc.
    eexists _, _, []. split; [reflexivity|]. rewrite app_nil_r. repeat split.
  - apply tied_at_quiet. unfold write. rewrite Hacc.
    eexists _, _, [Sent (firstn k msg)]. repeat split.
  - intros out q E. unfold write in E. rewrite Hacc in E.
    injection E as <- <-. split; [repeat split|].
    exists []. now rewrite app_nil_r.
Qed.

Lemma tied_at_set_conn (s : socket) (p : proc) : tied_at T p (set_conn s).
Proof.
  apply tied_at_quiet. eexists _, _, []. split; [reflexivity|].
  rewrite app_nil_r. repeat split.
Qed.

Lemma tied_at_set_cwd (d : list byte) (p : proc) : tied_at T p (set_cwd d).
Proof.
  apply tied_at_quiet. eexists _, _, []. split; [reflexivity|].
  rewrite app_nil_r. repeat split.
Qed.

Lemma tied_at_getcwd (p : proc) : tied_at T p getcwd.
Proof.
  apply tied_at_quiet. eexists _, _, []. split; [reflexivity|].
  rewrite app_nil_r. repeat split.
Qed.

Lemma tied_at_getpid (p : proc) : tied_at T p getpid.
Proof.
  apply tied_at_quiet. eexists _, _, []. split; [reflexivity|].
  rewrite app_nil_r. repeat split.
Qed.

Lemma tied_at_getppid (p : proc) : tied_at T p getppid.
Proof.
  apply tied_at_quiet. eexists _, _, []. split; [reflexivity|].
  rewrite app_nil_r. repeat split.
Qed.

Lemma tied_at_get_child_pid (p : proc) : tied_at T p get_child_pid.
Proof.
  apply tied_at_quiet. eexists _, _, []. split; [reflexivity|].
  rewrite app_nil_r. repeat split.
Qed.

(** [get_header_str] either returns the header or complains, signals
    [header_victim] and exits. *)
Lemma get_header_str_cases (co : list byte) (size : Z) (p : proc) :
  get_header_str co size p =
  if HEADER_SIZE - 1 <? num_length_of size then
    (Exit 1,
     with_trace p (trace p ++ [Print (lit "output is too long, exiting." ++ [LF]);
                               Kill (header_victim p)]))
  else (Ret (header_str co size), p).
Proof.
  unfold get_header_str.
  destruct (HEADER_SIZE - 1 <? num_length_of size); [|reflexivity].
  unfold bind, printf, emit, getpid, get_child_pid, getppid, kill, exit,
    header_victim, with_trace.
  cbn. destruct (pid p =? child_pid p); cbn; now rewrite <- app_assoc.
Qed.

Lemma tied_at_get_header_str (co : list byte) (size : Z) (p : proc) :
  T p (header_victim p) -> tied_at T p (get_header_str co size).
Proof.
  intros Ht out q E. rewrite get_header_str_cases in E.
  destruct (HEADER_SIZE - 1 <? num_length_of size); injection E as <- <-.
  - split; [repeat split|]. eexists. split; [reflexivity|].
    split; [reflexivity|].
    exists [Print (lit "output is too long, exiting." ++ [LF])],
      (header_victim p). repeat split. exact Ht.
  - split; [apply same_ids_refl|]. exists []. now rewrite app_nil_r.
Qed.

End Tied.

Lemma same_ids_sym (p q : proc) : same_ids p q -> same_ids q p.
Proof. unfold same_ids. intuition congruence. Qed.

Lemma header_victim_same (p q : proc) :
  same_ids p q -> header_victim q = header_victim p.
Proof. intros (H1 & H2 & H3). unfold header_victim. now rewrite H1, H2, H3. Qed.

Lemma shell_target_stable : stable shell_target.
Proof.
  intros p q t Hids [-> | ->]; [left | right].
  - apply Hids.
  - now apply header_victim_same.
Qed.

Lemma request_target_stable : stable request_target.
Proof.
  intros p q t Hids [-> | ->]; [left | right].
  - apply Hids.
  - now apply header_victim_same.
Qed.

(** Steps through straight-line code. *)
Ltac tie T_stable :=
  repeat first
    [ apply tied_at_ret
    | apply tied_at_undefined
    | apply tied_at_blocked
    | apply tied_at_read
    | apply tied_at_write
    | apply tied_at_set_conn
    | apply tied_at_set_cwd
    | apply tied_at_getcwd
    | apply tied_at_getpid
    | apply tied_at_getppid
    | apply tied_at_get_child_pid
    | apply tied_at_emit; exact I
    | apply tied_at_kill_exit
    | apply tied_at_get_header_str
    | eapply tied_at_bind; [exact T_stable | | intros ? ? ? ?] ].

(** What a getter returned. *)
Ltac got :=
  repeat match goal with
         | E : getppid _ = (Ret _, _) |- _ => injection E as <- <-
         | E : getpid _ = (Ret _, _) |- _ => injection E as <- <-
         | E : get_child_pid _ = (Ret _, _) |- _ => injection E as <- <-
         | E : getcwd _ = (Ret _, _) |- _ => injection E as <- <-
         end.

Section TiedCode.

Variable o : os.

Lemma tied_at_read_output (stream : list byte) :
  forall output curr_size p,
  tied_at request_target p (read_output o stream output curr_size).
Proof.
  induction stream as [stream IH] using shorter_ind.
  intros output curr_size p. rewrite read_output_step.
  destruct stream as [|c stream']; [apply tied_at_ret|].
  destruct (fgets_some c stream') as (line & rest & -> & _ & Hlt).
  cbv zeta.
  eapply tied_at_bind;
    [exact request_target_stable | apply tied_at_emit; exact I
    | intros [] p' _ _].
  destruct (grants o _).
  - destruct (curr_size - 1 <? 0); [apply tied_at_undefined | now apply IH].
  - tie request_target_stable. got. now left.
Qed.

Lemma tied_at_engine (input command : list byte) (p : proc) :
  tied_at request_target p (execute_on_current_node o input command).
Proof.
  unfold execute_on_current_node. destruct (is_cd command).
  - unfold change_directory.
    eapply tied_at_bind;
      [exact request_target_stable | apply tied_at_getcwd | intros ? ? ? _].
    got.
    destruct (chdir_to o _ _); tie request_target_stable.
  - unfold run_subprocess.
    destruct (pipe_capacity o <? Z.of_nat (strlen input));
      [tie request_target_stable|].
    do 4 (eapply tied_at_bind;
          [exact request_target_stable | apply tied_at_emit; exact I
          | intros [] ? _ _]).
    eapply tied_at_bind;
      [exact request_target_stable | apply tied_at_getcwd | intros ? ? ? _].
    got. destruct (spawn o _ _ _) as [stream|].
    + eapply tied_at_bind;
        [exact request_target_stable | apply tied_at_read_output
        | intros ? ? _ _].
      tie request_target_stable.
    + tie request_target_stable. got. now left.
Qed.

End TiedCode.

(** Steps through branching code as well. *)
Ltac tie_all T_stable :=
  repeat (tie T_stable; got;
          try match goal with
              | |- tied_at _ _ (if ?c then _ else _) => destruct c
              | |- tied_at _ _ (match ?x with Some _ => _ | None => _ end) =>
                  destruct x
              end).

(** The process signalled is the one the numbers name. *)
Ltac named :=
  unfold shell_target, request_target, same_ids in *;
  intuition congruence.

Section TiedHandlers.

Variable o : os.

Lemma tied_at_receive_request (p : proc) :
  tied_at request_target p (receive_request o).
Proof.
  unfold receive_request, abandon.
  tie_all request_target_stable; named.
Qed.

Lemma tied_at_send_output (output : option (list byte)) (p : proc) :
  tied_at request_target p (send_output output).
Proof.
  unfold send_output, abandon. destruct output as [block|].
  - tie_all request_target_stable; named.
  - apply tied_at_undefined.
Qed.

Lemma tied_at_request_turn (serv_sock : socket) (p : proc) :
  tied_at request_target p (request_turn o serv_sock).
Proof.
  unfold request_turn.
  eapply tied_at_bind;
    [exact request_target_stable | apply tied_at_set_conn | intros ? ? _ _].
  eapply tied_at_bind;
    [exact request_target_stable | apply tied_at_receive_request
    | intros ? ? _ _].
  eapply tied_at_bind;
    [exact request_target_stable | apply tied_at_engine | intros ? ? _ _].
  apply tied_at_send_output.
Qed.

Lemma tied_at_await_reply (child : Z) (p : proc) :
  child = child_pid p -> tied_at shell_target p (await_reply o child).
Proof.
  intros ->. unfold await_reply, green, reset.
  tie_all shell_target_stable; named.
Qed.

Lemma tied_at_send_command (child : Z) (msg : list byte) (p : proc) :
  child = child_pid p -> tied_at shell_target p (send_command o child msg).
Proof.
  intros ->. unfold send_command.
  eapply tied_at_bind;
    [exact shell_target_stable | apply tied_at_write | intros k p' _ Hids].
  destruct (k <? 0); [tie_all shell_target_stable; named|].
  destruct (k <? _); [tie_all shell_target_stable; named|].
  eapply tied_at_bind;
    [exact shell_target_stable | apply tied_at_emit; exact I
    | intros [] p'' _ Hids'].
  apply tied_at_await_reply. named.
Qed.

(** [shell_turn] is the prompt, the test of the line, then the two
    halves. *)
Lemma shell_turn_halves (got : line_read) :
  shell_turn o got =
  (cyan ;; printf (LF :: lit "[shell]-> ") ;; reset ;;
   let cmd_inp_len := line_length got in
   let cmd_buff := line_buffer got in
   if ((cmd_inp_len <=? 0) ||
       ((cmd_inp_len =? 1) && Ascii.eqb (nth 0 cmd_buff NUL) LF))%bool
   then ret tt
   else
     let cmd_buff := poke cmd_buff (Z.to_nat (cmd_inp_len - 1)) NUL in
     child <- get_child_pid ;;
     if streq cmd_buff (lit "exit") then
       green ;; printf (LF :: lit "EXITING SHELL..." ++ [LF; LF]) ;; reset ;;
       kill child ;; exit 1
     else
       hdr <- get_header_str (lit "c") (to_int (cmd_inp_len - 1)) ;;
       send_command o child (message hdr cmd_buff)).
Proof. reflexivity. Qed.

Lemma tied_at_shell_turn (got : line_read) (p : proc) :
  tied_at shell_target p (shell_turn o got).
Proof.
  rewrite shell_turn_halves. unfold cyan, green, reset.
  do 3 (eapply tied_at_bind;
        [exact shell_target_stable | apply tied_at_emit; exact I
        | intros [] ? _ ?]).
  cbv zeta. destruct (_ || _)%bool; [apply tied_at_ret|].
  eapply tied_at_bind;
    [exact shell_target_stable | apply tied_at_get_child_pid | intros ? ? ? _].
  got. destruct (streq _ _).
  - tie_all shell_target_stable; named.
  - eapply tied_at_bind;
      [exact shell_target_stable | apply tied_at_get_header_str; now right
      | intros ? ? _ ?].
    apply tied_at_send_command. named.
Qed.

End TiedHandlers.

(** ** The two processes end together *)

Section Together.

Variable o : os.









End Together.

(** ** The command channel, turn by turn *)

Section Commands.

Variable o : os.

Lemma line_length_snoc (body : list byte) (x : byte) :
  line_length (Line (body ++ [x])) = Z.of_nat (length body) + 1.
Proof. cbn [line_length]. rewrite length_app. cbn [length]. lia. Qed.

(** The buffer once its last byte was overwritten. *)
Lemma line_buffer_poked (body : list byte) (x : byte) :
  poke (line_buffer (Line (body ++ [x])))
       (Z.to_nat (line_length (Line (body ++ [x])) - 1)) NUL
  = body ++ [NUL; NUL].
Proof.
  rewrite line_length_snoc. cbn [line_buffer].
  replace (Z.to_nat (Z.of_nat (length body) + 1 - 1)) with (length body) by lia.
  rewrite <- app_assoc. cbn [app]. apply poke_end.
Qed.

Lemma line_is_taken (body : list byte) (x : byte) :
  body <> [] ->
  ((line_length (Line (body ++ [x])) <=? 0) ||
   ((line_length (Line (body ++ [x])) =? 1) &&
    Ascii.eqb (nth 0 (line_buffer (Line (body ++ [x]))) NUL) LF))%bool = false.
Proof.
  intros Hb. rewrite line_length_snoc.
  assert (0 < Z.of_nat (length body)) by (destruct body; [contradiction | cbn; lia]).
  destruct (Z.leb_spec (Z.of_nat (length body) + 1) 0); [lia|].
  destruct (Z.eqb_spec (Z.of_nat (length body) + 1) 1); [lia | reflexivity].
Qed.

(** A line whose length is a header's once it is an [int]. *)
Lemma shell_turn_command_int (body : list byte) (x : byte) (p : proc) :
  body <> [] -> nul_free body -> body <> lit "exit" ->
  0 <= to_int (Z.of_nat (length body)) <= 99999 ->
  shell_turn o (Line (body ++ [x])) p =
  send_command o (child_pid p)
    (header_str (lit "c") (to_int (Z.of_nat (length body))) ++ body)
    (with_trace p (trace p ++ prompt)).
Proof.
  intros Hb Hfree Hexit Hr. rewrite shell_turn_halves.
  unfold cyan, reset, printf. rewrite !bind_emit. cbv zeta.
  rewrite line_is_taken, line_buffer_poked by assumption.
  rewrite bind_get_child_pid.
  assert (Hs : streq (body ++ [NUL; NUL]) (lit "exit") = false).
  { unfold streq. rewrite cstr_app_nul by assumption.
    change (cstr (lit "exit")) with (lit "exit").
    destruct (list_eq_dec ascii_dec body (lit "exit")); [contradiction|].
    reflexivity. }
  rewrite Hs, line_length_snoc.
  replace (Z.of_nat (length body) + 1 - 1) with (Z.of_nat (length body)) by lia.
  rewrite (bind_returns _ _ _ _ _ (get_header_str_small _ _ _ Hr)).
  unfold message.
  rewrite (cstr_of_nul_free (header_str (lit "c") _))
    by (apply (header_str_nul_free "c"); [now left | exact Hr]).
  rewrite cstr_app_nul by assumption.
  unfold prompt. cbn [child_pid with_trace]. now tidy.
Qed.

(** A line that is a command: what is left to do is to send it. *)
Lemma shell_turn_command (body : list byte) (x : byte) (p : proc) :
  body <> [] -> nul_free body -> body <> lit "exit" ->
  Z.of_nat (length body) <= 99999 ->
  shell_turn o (Line (body ++ [x])) p =
  send_command o (child_pid p)
    (header_str (lit "c") (Z.of_nat (length body)) ++ body)
    (with_trace p (trace p ++ prompt)).
Proof.
  intros Hb Hfree Hexit Hlen. rewrite shell_turn_halves.
  unfold cyan, reset, printf. rewrite !bind_emit. cbv zeta.
  rewrite line_is_taken, line_buffer_poked by assumption.
  rewrite bind_get_child_pid.
  assert (Hs : streq (body ++ [NUL; NUL]) (lit "exit") = false).
  { unfold streq. rewrite cstr_app_nul by assumption.
    change (cstr (lit "exit")) with (lit "exit").
    destruct (list_eq_dec ascii_dec body (lit "exit")); [contradiction|].
    reflexivity. }
  rewrite Hs, line_length_snoc.
  replace (Z.of_nat (length body) + 1 - 1) with (Z.of_nat (length body)) by lia.
  rewrite to_int_small by (unfold INT_MAX; lia).
  assert (Hr : 0 <= Z.of_nat (length body) <= 99999) by lia.
  rewrite (bind_returns _ _ _ _ _ (get_header_str_small _ _ _ Hr)).
  unfold message.
  rewrite (cstr_of_nul_free (header_str (lit "c") _))
    by (apply (header_str_nul_free "c"); [now left | exact Hr]).
  rewrite cstr_app_nul by assumption.
  unfold prompt. cbn [child_pid with_trace]. now tidy.
Qed.

(** The reply arrives whole. *)
Lemma await_reply_whole (child : Z) (hdr payload : list byte)
    (later : list arrival) (p : proc) :
  announces "o" (length payload) hdr ->
  inbound (conn p) = pieces (hdr ++ payload) later ->
  await_reply o child p =
  (Ret tt,
   with_trace (with_inbound p later)
     (trace p ++ [Print (ESC :: lit "[1;32m");
                  Print (LF :: cstr (payload ++ [NUL]) ++ [LF]);
                  Print (ESC :: lit "[0m")])).
Proof.
  intros (Hl & Ht & Hs) Hin. unfold await_reply.
  assert (R1 : read 6 p = (Ret (Some hdr), with_inbound p (pieces payload later)))
    by (rewrite <- Hl; now apply read_pieces).
  rewrite (bind_returns _ _ _ _ _ R1).
  destruct (decode_filled o hdr Hl) as [Et Es].
  rewrite Et, Es, Ht, Hs. cbn [Ascii.eqb Bool.eqb].
  destruct (Z.ltb_spec (Z.of_nat (length payload)) 0); [lia|].
  rewrite Nat2Z.id.
  assert (R2 : read (length payload) (with_inbound p (pieces payload later)) =
               (Ret (Some payload), with_inbound p later)).
  { pose proof (read_pieces_next payload [] later p) as R.
    now rewrite app_nil_r in R. }
  rewrite (bind_returns _ _ _ _ _ R2).
  rewrite filled_full by reflexivity.
  unfold green, reset, printf. rewrite !bind_emit. unfold emit.
  cbn [trace with_inbound with_conn with_trace]. now tidy.
Qed.

(** The reply header carries another tag. *)
Lemma await_reply_wrong_tag (child : Z) (hdr rest : list byte)
    (later : list arrival) (p : proc) :
  length hdr = 6%nat -> header_tag hdr <> "o"%char ->
  inbound (conn p) = pieces (hdr ++ rest) later ->
  await_reply o child p =
  (Exit 1,
   with_trace (with_inbound p (pieces rest later))
     (trace p ++
      [Print (LF :: lit "tPossible application or network error detected. Exiting application." ++ [LF]);
       Kill child])).
Proof.
  intros Hl Ht Hin. unfold await_reply.
  assert (R1 : read 6 p = (Ret (Some hdr), with_inbound p (pieces rest later)))
    by (rewrite <- Hl; now apply read_pieces).
  rewrite (bind_returns _ _ _ _ _ R1).
  destruct (decode_filled o hdr Hl) as [Et _]. rewrite Et.
  destruct (Ascii.eqb_spec (header_tag hdr) "o"); [contradiction|].
  unfold printf, kill, exit. rewrite !bind_emit.
  cbn [trace with_inbound with_conn]. now tidy.
Qed.

End Commands.

(** ** [main] up to the two loops *)

Section Main.

Variable o : os.

(** Where [main] is after its [chdir], and what it has printed by then. *)
Lemma main_setup_cases (b : boot) (p : proc) :
  main_setup o b p =
  match passwd b with
  | None => (Undefined, p)
  | Some None =>
      (Exit 1,
       with_trace p
         (trace p ++ [Print (lit "Couldn't access login username. Exiting." ++ [LF])]))
  | Some (Some login_name) =>
      let greeting := Print (lit "Login detected: " ++ cstr login_name ++ [LF]) in
      let q :=
        match chdir_to o (cwd p) (lit "/home/" ++ cstr login_name) with
        | Some there => with_cwd (with_trace p (trace p ++ [greeting])) there
        | None =>
            with_trace p
              (trace p ++ [greeting; Perror (lit "chdir");
                           Print (lit "Couldn't change directory." ++ [LF])])
        end in
      match connects b with
      | Some serv_socket => (Ret tt, with_conn q serv_socket)
      | None =>
          (Exit 1,
           with_trace q
             (trace q ++
              [Print (lit "Couldn't connect to server. Exiting application." ++ [LF]);
               Perror (lit "connect")]))
      end
  end.
Proof.
  unfold main_setup.
  destruct (passwd b) as [[login_name|]|]; [|reflexivity..].
  unfold printf, perror. rewrite bind_emit, bind_getcwd.
  cbn [cwd with_trace].
  destruct (chdir_to o (cwd p) (lit "/home/" ++ cstr login_name)) as [there|];
    destruct (connects b) as [serv_socket|]; cbv zeta;
    unfold bind, set_cwd, set_conn, emit, exit, with_cwd, with_conn, with_trace;
    cbn; rewrite <- ?app_assoc; reflexivity.
Qed.


End Main.

(** ** The guard of [get_header_str] on numbers of either sign *)

Section Signs.

(** The loop counts the digits of a negative number as of its opposite:
    [s / 10] rounds towards zero. *)
Lemma count_digits_opp (s : Z) :
  0 <= s -> forall n, count_digits (- s) n = count_digits s n.
Proof.
  intros Hs. pattern s. apply Zlt_0_ind; [clear s Hs | exact Hs].
  intros s IH Hs n.
  rewrite (count_digits_step (- s)), (count_digits_step s).
  destruct (Z.eq_dec s 0) as [->|Hnz]; [reflexivity|].
  destruct (Z.eq_dec (- s) 0); [lia|].
  rewrite Z.quot_opp_l by lia. apply IH.
  split; [apply Z.quot_pos; lia | apply Z.quot_lt; lia].
Qed.

Lemma num_length_of_abs (size : Z) :
  num_length_of size = num_length_of (Z.abs size).
Proof.
  destruct (Z.abs_spec size) as [[_ ->] | [Hneg ->]]; [reflexivity|].
  unfold num_length_of.
  rewrite <- (count_digits_opp (- size)) by lia.
  rewrite Z.opp_involutive.
  destruct (Z.eqb_spec size 0), (Z.eqb_spec (- size) 0); lia || reflexivity.
Qed.

Lemma guard_by_abs (size : Z) :
  (HEADER_SIZE - 1 <? num_length_of size) = negb (Z.abs size <=? 99999).
Proof.
  rewrite num_length_of_abs.
  destruct (Z.leb_spec (Z.abs size) 99999) as [Hs|Hl]; cbn [negb].
  - destruct (num_length_of_small (Z.abs size)) as [_ Hn]; [lia|].
    apply Z.ltb_ge. unfold HEADER_SIZE. lia.
  - pose proof (num_length_of_large (Z.abs size)) as Hn.
    apply Z.ltb_lt. unfold HEADER_SIZE. lia.
Qed.

Lemma header_str_negative (co : list byte) (size : Z) :
  -99999 <= size < 0 ->
  header_str co size =
  cstr co ++ repeat "0"%char (5 - length (dec_digits (- size))) ++
  "-"%char :: dec_digits (- size).
Proof.
  intros Hs. unfold header_str, print_int.
  rewrite num_length_of_abs, Z.abs_neq by lia.
  destruct (num_length_of_small (- size)) as [-> Hn]; [lia|].
  destruct (Z.ltb_spec size 0); [|lia].
  rewrite cstr_terminated
    by (apply all_digits_nul_free, zeroes_all_digits).
  do 3 f_equal. unfold HEADER_SIZE. lia.
Qed.

End Signs.

(** ** The engine and the connection *)

Section Offline.

Variable o : os.

(** Gathering the output puts nothing on the connection. *)
Lemma read_output_unsent (stream : list byte) :
  forall output curr_size p,
  exists out events,
    read_output o stream output curr_size p =
    (out, with_trace p (trace p ++ events)) /\
    Forall unsent events.
Proof.
  induction stream as [stream IH] using shorter_ind.
  intros output curr_size p. rewrite read_output_step.
  destruct stream as [|c stream'].
  - exists (Ret output), []. unfold fgets, ret.
    now rewrite with_trace_nil.
  - destruct (fgets_some c stream') as (line & rest & -> & _ & Hlt).
    cbv zeta. rewrite bind_emit.
    destruct (grants o _).
    + destruct (curr_size - 1 <? 0).
      * exists Undefined, [Fgets line]. split; [reflexivity|].
        repeat constructor.
      * edestruct (IH rest Hlt) as (out & events & -> & Hu).
        exists out, (Fgets line :: events). split.
        -- tidy. reflexivity.
        -- constructor; [exact I | exact Hu].
    + eexists (Exit 1), _. unfold printf, kill.
      rewrite bind_emit, bind_getppid, bind_emit.
      unfold exit. tidy. split; [reflexivity|]. repeat constructor.
Qed.

(** The subprocess branch changes the trace only, and by nothing sent. *)
Lemma run_subprocess_unsent (input command : list byte) (p : proc) :
  exists out events,
    run_subprocess o input command p =
    (out, with_trace p (trace p ++ events)) /\
    Forall unsent events.
Proof.
  unfold run_subprocess.
  destruct (pipe_capacity o <? Z.of_nat (strlen input)).
  - eexists Blocked, _. rewrite bind_emit. unfold blocked.
    split; [reflexivity|]. repeat constructor.
  - rewrite !bind_emit, bind_getcwd. cbn [cwd with_trace]. tidy.
    destruct (spawn o (cwd p) (cstr command) (cstr input)) as [stream|].
    + match goal with |- context [bind _ _ ?q] =>
        destruct (read_output_unsent stream None 1 q)
          as (out & events & E & Hu)
      end.
      unfold bind at 1. rewrite E. tidy.
      destruct out as [output|code| | |].
      * eexists (Ret output), _. rewrite !bind_emit. unfold ret. tidy.
        split; [reflexivity|].
        repeat (apply Forall_cons; [exact I|]).
        apply Forall_app. split; [exact Hu | repeat constructor].
      * eexists (Exit code), _. split; [reflexivity|].
        repeat (apply Forall_cons; [exact I|]). exact Hu.
      * eexists Undefined, _. split; [reflexivity|].
        repeat (apply Forall_cons; [exact I|]). exact Hu.
      * eexists Blocked, _. split; [reflexivity|].
        repeat (apply Forall_cons; [exact I|]). exact Hu.
      * eexists Killed, _. split; [reflexivity|].
        repeat (apply Forall_cons; [exact I|]). exact Hu.
    + eexists (Exit 1), _. unfold perror, kill, exit.
      rewrite bind_emit, bind_getppid, bind_emit. tidy.
      split; [reflexivity|]. repeat constructor.
Qed.

(** The subprocess branch on a command that prints something. *)
Lemma run_subprocess_gathers (text command out : list byte) (p : proc) :
  nul_free text ->
  Z.of_nat (length text) <= pipe_capacity o ->
  spawn o (cwd p) (cstr command) text = Some out ->
  (forall n, grants o n = true) ->
  out <> [] -> nul_free out -> Z.of_nat (length out) < INT_MAX ->
  exists reads,
    run_subprocess o (text ++ [NUL]) command p =
    (Ret (Some (out ++ [NUL])),
     with_trace p (trace p ++
       [PipeWrite text; PipeCloseWrite; Dup2Stdin; Popen (cstr command)] ++
       map Fgets reads ++ [PipeCloseRead; Pclose])) /\
    concat reads = out.
Proof.
  intros Htext Hfit Hspawn Hgrants Hout Hfree Hmax.
  assert (Hc : cstr (text ++ [NUL]) = text) by now apply cstr_terminated.
  rewrite run_subprocess_fits by (unfold strlen; rewrite Hc; lia).
  rewrite Hc, Hspawn.
  destruct (read_output_gathers o out [] None
              (launched (text ++ [NUL]) command p) Hfree)
    as (reads & E & Hcat);
    [ right; split; reflexivity | exact Hgrants | simpl length; lia | ].
  change (1 + Z.of_nat (length (@nil byte))) with 1 in E.
  exists reads. split; [|exact Hcat].
  rewrite (bind_returns _ _ _ _ _ E), !bind_emit. unfold ret, launched.
  rewrite !with_trace_twice, !trace_with_trace, Hc.
  destruct out as [|c out']; [contradiction|].
  cbn [app]. now rewrite <- !app_assoc.
Qed.

End Offline.

(** ** Writes that fail or come short *)

Section Writes.

Variable o : os.

Lemma send_command_whole (child : Z) (msg : list byte) (p : proc) :
  accepts (conn p) = [] ->
  send_command o child msg p =
  await_reply o child
    (with_trace p
       (trace p ++ [Sent msg;
                    Print (lit "Command sent to server: " ++ msg ++
                           lit ". Waiting for response...." ++ [LF])])).
Proof.
  intros Hacc. unfold send_command.
  rewrite (bind_returns _ _ _ _ _ (write_whole msg p Hacc)).
  destruct (Z.ltb_spec (Z.of_nat (length msg)) 0); [lia|].
  rewrite Z.ltb_irrefl. unfold printf. rewrite bind_emit. now tidy.
Qed.

Lemma write_fails (msg : list byte) (more : list write_result) (p : proc) :
  accepts (conn p) = WriteFailure :: more ->
  write msg p = (Ret (-1), with_accepts p more).
Proof. intros H. unfold write. now rewrite H. Qed.

Lemma write_takes (msg : list byte) (k : nat) (more : list write_result)
    (p : proc) :
  accepts (conn p) = Takes k :: more ->
  write msg p =
  (Ret (Z.of_nat (length (firstn k msg))),
   with_trace (with_accepts p more) (trace p ++ [Sent (firstn k msg)])).
Proof. intros H. unfold write. now rewrite H. Qed.

Lemma send_command_failed (child : Z) (msg : list byte)
    (more : list write_result) (p : proc) :
  accepts (conn p) = WriteFailure :: more ->
  send_command o child msg p =
  (Exit 1,
   with_trace (with_accepts p more)
     (trace p ++ [Perror (lit "write");
                  Print (lit "Exiting application." ++ [LF]);
                  Kill child])).
Proof.
  intros Hacc. unfold send_command.
  rewrite (bind_returns _ _ _ _ _ (write_fails msg more p Hacc)).
  change (-1 <? 0) with true. cbv iota.
  unfold perror, printf, kill, exit. rewrite !bind_emit.
  cbn [trace with_accepts with_conn]. now tidy.
Qed.

Lemma write_breaks (msg : list byte) (more : list write_result) (p : proc) :
  accepts (conn p) = BrokenPipe :: more ->
  write msg p = (Killed, with_accepts p more).
Proof. intros H. unfold write. now rewrite H. Qed.

Lemma send_command_broken (child : Z) (msg : list byte)
    (more : list write_result) (p : proc) :
  accepts (conn p) = BrokenPipe :: more ->
  send_command o child msg p = (Killed, with_accepts p more).
Proof.
  intros Hacc. unfold send_command, bind.
  now rewrite (write_breaks msg more p Hacc).
Qed.

Lemma send_command_short (child : Z) (msg : list byte) (k : nat)
    (more : list write_result) (p : proc) :
  accepts (conn p) = Takes k :: more -> (k < length msg)%nat ->
  send_command o child msg p =
  (Exit 1,
   with_trace (with_accepts p more)
     (trace p ++
      [Sent (firstn k msg);
       Print (LF :: lit "Unable to send the complete command to server. Possible network error. Exiting application." ++ [LF]);
       Kill child])).
Proof.
  intros Hacc Hk. unfold send_command.
  rewrite (bind_returns _ _ _ _ _ (write_takes msg k more p Hacc)).
  rewrite length_firstn.
  destruct (Z.ltb_spec (Z.of_nat (Nat.min k (length msg))) 0); [lia|].
  destruct (Z.ltb_spec (Z.of_nat (Nat.min k (length msg)))
              (Z.of_nat (length msg))); [|lia].
  unfold printf, kill, exit. rewrite !bind_emit.
  cbn [trace with_accepts with_conn with_trace]. now tidy.
Qed.

Lemma await_reply_read_failure (child : Z) (later : list arrival) (p : proc) :
  inbound (conn p) = ReadFailure :: later ->
  await_reply o child p =
  (Exit 1,
   with_trace (with_inbound p later)
     (trace p ++ [Perror (lit "read"); Kill child])).
Proof.
  intros Hin. unfold await_reply.
  assert (R : read 6 p = (Ret None, with_inbound p later))
    by (unfold read; now rewrite Hin).
  rewrite (bind_returns _ _ _ _ _ R).
  unfold perror, kill, exit. rewrite !bind_emit.
  cbn [trace with_inbound with_conn]. now tidy.
Qed.

End Writes.

(** ** Requests that are not what they should be *)

Section BadRequests.

Variable o : os.

Lemma bind_exits {A B} (m : M A) (f : A -> M B) (p q : proc) (code : Z) :
  m p = (Exit code, q) -> bind m f p = (Exit code, q).
Proof. intros E. unfold bind. now rewrite E. Qed.

Lemma request_turn_starts (serv_sock : socket) (p : proc) :
  request_turn o serv_sock p =
  (request <- receive_request o ;;
   output <- execute_on_current_node o (fst request) (snd request) ;;
   send_output output) (with_conn p serv_sock).
Proof. reflexivity. Qed.

Lemma abandon_exits {A} (p : proc) :
  @abandon A p = (Exit 1, with_trace p (trace p ++ [Kill (ppid p)])).
Proof. reflexivity. Qed.

Lemma receive_request_first_read_fails (later : list arrival) (p : proc) :
  inbound (conn p) = ReadFailure :: later ->
  receive_request o p =
  (Exit 1,
   with_trace (with_inbound p later)
     (trace p ++ [Perror (lit "read"); Kill (ppid p)])).
Proof.
  intros Hin. unfold receive_request.
  assert (R : read 6 p = (Ret None, with_inbound p later))
    by (unfold read; now rewrite Hin).
  rewrite (bind_returns _ _ _ _ _ R).
  unfold perror. rewrite bind_emit, abandon_exits.
  cbn [trace ppid with_inbound with_conn with_trace]. now tidy.
Qed.

Lemma receive_request_second_read_fails (cmd_hdr : list byte)
    (later : list arrival) (p : proc) :
  length cmd_hdr = 6%nat ->
  inbound (conn p) = Data cmd_hdr :: ReadFailure :: later ->
  receive_request o p =
  (Exit 1,
   with_trace (with_inbound p later)
     (trace p ++ [Perror (lit "read"); Kill (ppid p)])).
Proof.
  intros Hl Hin. unfold receive_request.
  assert (R1 : read 6 p =
               (Ret (Some cmd_hdr), with_inbound p (ReadFailure :: later))).
  { rewrite <- Hl.
    apply (read_pieces cmd_hdr [] (ReadFailure :: later) p).
    rewrite app_nil_r, Hin.
    destruct cmd_hdr; [discriminate | reflexivity]. }
  rewrite (bind_returns _ _ _ _ _ R1).
  assert (R2 : read 6 (with_inbound p (ReadFailure :: later)) =
               (Ret None, with_inbound p later)) by reflexivity.
  rewrite (bind_returns _ _ _ _ _ R2).
  unfold perror. rewrite bind_emit, abandon_exits.
  cbn [trace ppid with_inbound with_conn with_trace]. now tidy.
Qed.

Lemma receive_request_wrong_input_tag (cmd_hdr inp_hdr rest : list byte)
    (later : list arrival) (p : proc) :
  length cmd_hdr = 6%nat -> length inp_hdr = 6%nat ->
  header_tag inp_hdr <> "i"%char ->
  inbound (conn p) = pieces (cmd_hdr ++ inp_hdr ++ rest) later ->
  receive_request o p =
  (Exit 1,
   with_trace (with_inbound p (pieces rest later))
     (trace p ++
      [Print (LF :: lit "Possible application or network error detected. Exiting application." ++ [LF]);
       Kill (ppid p)])).
Proof.
  intros Hcl Hil Hit Hin. unfold receive_request.
  assert (R1 : read 6 p =
          (Ret (Some cmd_hdr),
           with_inbound p (pieces (inp_hdr ++ rest) later)))
    by (rewrite <- Hcl; now apply read_pieces).
  rewrite (bind_returns _ _ _ _ _ R1).
  assert (R2 : read 6 (with_inbound p (pieces (inp_hdr ++ rest) later)) =
          (Ret (Some inp_hdr), with_inbound p (pieces rest later)))
    by (rewrite <- Hil; apply read_pieces_next).
  rewrite (bind_returns _ _ _ _ _ R2).
  destruct (decode_filled o inp_hdr Hil) as [Eit _]. rewrite Eit.
  destruct (Ascii.eqb_spec (header_tag inp_hdr) "i"); [contradiction|].
  unfold printf. rewrite bind_emit, abandon_exits.
  cbn [trace ppid with_inbound with_conn with_trace]. now tidy.
Qed.

Lemma receive_request_wrong_command_tag (cmd_hdr inp_hdr inp rest : list byte)
    (later : list arrival) (p : proc) :
  length cmd_hdr = 6%nat -> header_tag cmd_hdr <> "c"%char ->
  announces "i" (length inp) inp_hdr ->
  inbound (conn p) = pieces (cmd_hdr ++ inp_hdr ++ inp ++ rest) later ->
  receive_request o p =
  (Exit 1,
   with_trace (with_inbound p (pieces rest later))
     (trace p ++
      [Print (LF :: lit "Possible application or network error detected. Exiting application." ++ [LF]);
       Kill (ppid p)])).
Proof.
  intros Hcl Hct (Hil & Hit & His) Hin. unfold receive_request.
  assert (R1 : read 6 p =
          (Ret (Some cmd_hdr),
           with_inbound p (pieces (inp_hdr ++ inp ++ rest) later)))
    by (rewrite <- Hcl; now apply read_pieces).
  rewrite (bind_returns _ _ _ _ _ R1).
  assert (R2 : read 6 (with_inbound p (pieces (inp_hdr ++ inp ++ rest) later)) =
          (Ret (Some inp_hdr), with_inbound p (pieces (inp ++ rest) later)))
    by (rewrite <- Hil; apply read_pieces_next).
  rewrite (bind_returns _ _ _ _ _ R2).
  destruct (decode_filled o inp_hdr Hil) as [Eit Eis].
  destruct (decode_filled o cmd_hdr Hcl) as [Ect _].
  rewrite Eit, Eis, Hit, His, Ect. cbn [Ascii.eqb Bool.eqb].
  destruct (Z.ltb_spec (Z.of_nat (length inp)) 0); [lia|].
  rewrite Nat2Z.id.
  assert (R3 : read (length inp) (with_inbound p (pieces (inp ++ rest) later)) =
          (Ret (Some inp), with_inbound p (pieces rest later)))
    by apply read_pieces_next.
  rewrite (bind_returns _ _ _ _ _ R3).
  destruct (Ascii.eqb_spec (header_tag cmd_hdr) "c"); [contradiction|].
  unfold printf. rewrite bind_emit, abandon_exits.
  cbn [trace ppid with_inbound with_conn with_trace]. now tidy.
Qed.

End BadRequests.

(** * Further properties of the code *)

(** ** Signals and exits *)

(** X1. A turn of [shell_handler], whatever the line and whatever the
    connection does: the numbers of the process are unchanged and the trace
    is only added to; when the turn exits, the status is 1 and the last
    thing done was its one signal, sent to [child_pid] or to the process
    [get_header_str] picks; when it does not exit, it has signalled
    nobody. *)
Theorem shell_turn_signals_as_it_exits (o : os) (got : line_read) (p : proc) :
  ends_tied shell_target p (shell_turn o got p).
Proof.
  destruct (shell_turn o got p) as [out q] eqn:E.
  exact (tied_at_shell_turn o got p out q E).
Qed.

(** X2. The same of a turn of [request_handler], whatever arrives: an exit
    has status 1 and follows the one signal, sent to the parent or to the
    process [get_header_str] picks; without an exit there is no signal. *)
Theorem request_turn_signals_as_it_exits (o : os) (serv_sock : socket)
    (p : proc) :
  ends_tied request_target p (request_turn o serv_sock p).
Proof.
  destruct (request_turn o serv_sock p) as [out q] eqn:E.
  exact (tied_at_request_turn o serv_sock p out q E).
Qed.



(** X4. [main] reaches the two loops exactly when the login name was found,
    [connect] succeeded and [fork] succeeded; a [chdir] that fails does not
    stop it. *)
Theorem main_launches_iff (o : os) (b : boot) (p : proc) :
  (exists a, main o b p = Launched a) <->
  (exists login_name serv_socket c,
     passwd b = Some (Some login_name) /\
     connects b = Some serv_socket /\ forks b = Some c).
Proof.
  unfold main. rewrite main_setup_cases.
  destruct (passwd b) as [[login_name|]|].
  - cbv zeta. destruct (connects b) as [serv_socket|].
    + destruct (forks b) as [c|].
      * split; [|eexists; reflexivity].
        intros _. now exists login_name, serv_socket, c.
      * split; [intros [a E]; discriminate E|].
        intros (? & ? & ? & _ & _ & E). discriminate E.
    + split; [intros [a E]; discriminate E|].
      intros (? & ? & ? & _ & E & _). discriminate E.
  - split; [intros [a E]; discriminate E|].
    intros (? & ? & ? & E & _). discriminate E.
  - split; [intros [a E]; discriminate E|].
    intros (? & ? & ? & E & _). discriminate E.
Qed.

(** X5. When [main] does not reach the loops, it stopped on a null [passwd]
    entry, which is undefined, or it exited with status 1; either way it
    has signalled nobody and has put nothing on a connection. *)
Theorem main_ends_quietly (o : os) (b : boot) (p : proc)
    (out : outcome unit) (q : proc) :
  main o b p = Ended out q ->
  ((out = Undefined /\ passwd b = None) \/ out = Exit 1) /\
  same_ids p q /\
  exists events,
    trace q = trace p ++ events /\ kills events = [] /\ Forall unsent events.
Proof.
  unfold main. rewrite main_setup_cases.
  destruct (passwd b) as [[login_name|]|].
  - cbv zeta.
    destruct (chdir_to o (cwd p) _) as [there|],
      (connects b) as [serv_socket|]; try destruct (forks b) as [c|];
      try discriminate;
      intros E; injection E as <- <-;
      (split; [now right|]); (split; [now repeat split|]);
      cbn [trace with_trace with_cwd with_conn]; rewrite <- ?app_assoc;
      eexists; (split; [reflexivity|]); split;
      try reflexivity; repeat constructor.
  - intros E. injection E as <- <-. split; [now right|].
    split; [now repeat split|]. eexists. split; [reflexivity|].
    split; [reflexivity | repeat constructor].
  - intros E. injection E as <- <-. split; [now left|].
    split; [now repeat split|]. exists []. rewrite app_nil_r.
    split; [reflexivity|]. split; [reflexivity | constructor].
Qed.

Lemma main_ends_quietly_lab :
  let q := with_trace lab_parent
             [Print (lit "Login detected: u" ++ [LF]);
              Perror (lit "chdir");
              Print (lit "Couldn't change directory." ++ [LF]);
              Print (lit "Couldn't connect to server. Exiting application." ++ [LF]);
              Perror (lit "connect")] in
  ((Exit 1 = @Undefined unit /\
    passwd (mkBoot (Some (Some (lit "u"))) None (Some 7%positive)) = None) \/
   Exit 1 = @Exit unit 1) /\
  same_ids lab_parent q /\
  exists events,
    trace q = trace lab_parent ++ events /\ kills events = [] /\
    Forall unsent events.
Proof.
  apply (main_ends_quietly lab
           (mkBoot (Some (Some (lit "u"))) None (Some 7%positive)) lab_parent).
  reflexivity.
Defined.



(** ** The guard of [get_header_str] *)

(** X7. [get_header_str] returns a header exactly for the sizes between
    -99999 and 99999: the digits are counted with the sign left out.  For
    any other size it complains, signals the other process and exits with
    status 1. *)
Theorem header_guard_is_by_magnitude (co : list byte) (size : Z) (p : proc) :
  get_header_str co size p =
  if Z.abs size <=? 99999 then (Ret (header_str co size), p)
  else
    (Exit 1,
     with_trace p (trace p ++ [Print (lit "output is too long, exiting." ++ [LF]);
                               Kill (header_victim p)])).
Proof.
  rewrite get_header_str_cases, guard_by_abs.
  now destruct (Z.abs size <=? 99999).
Qed.

(** X8. A negative size within the guard gives a header that is one byte
    longer than the six the other side reads: the tag, the zeroes, then the
    minus sign and the digits. *)
Theorem negative_size_makes_a_longer_header (co : list byte) (size : Z)
    (p : proc) :
  -99999 <= size < 0 ->
  get_header_str co size p =
  (Ret (cstr co ++ repeat "0"%char (5 - length (dec_digits (- size))) ++
        "-"%char :: dec_digits (- size)), p) /\
  length (header_str co size) = (length (cstr co) + 6)%nat.
Proof.
  intros Hs. rewrite get_header_str_cases, guard_by_abs.
  destruct (Z.leb_spec (Z.abs size) 99999); [|lia]. cbn [negb].
  rewrite header_str_negative by assumption. split; [reflexivity|].
  destruct (num_length_of_small (- size)) as [E Hn]; [lia|].
  rewrite E in Hn.
  rewrite !length_app, repeat_length. cbn [length]. lia.
Qed.

Lemma negative_size_makes_a_longer_header_5 :
  get_header_str (lit "o") (-5) lab_child = (Ret (lit "o0000-5"), lab_child) /\
  length (header_str (lit "o") (-5)) = 7%nat.
Proof.
  apply (negative_size_makes_a_longer_header (lit "o") (-5) lab_child). lia.
Defined.

(** ** A command on its way *)

(** X9. A turn of [shell_handler] on a command line, when the connection
    takes the frame and the reply arrives whole: the frame that was sent is
    the header for the line without its newline, then that line; the reply
    is read to its end and printed; the turn returns, and the loop goes
    on. *)
Theorem command_round_trip (o : os) (body hdr payload : list byte)
    (later : list arrival) (p : proc) :
  sendable body ->
  accepts (conn p) = [] ->
  announces "o" (length payload) hdr ->
  inbound (conn p) = pieces (hdr ++ payload) later ->
  shell_turn o (Line (body ++ [LF])) p =
  (Ret tt,
   with_trace (with_inbound p later)
     (trace p ++ prompt ++
      [Sent (command_frame body);
       Print (lit "Command sent to server: " ++ command_frame body ++
              lit ". Waiting for response...." ++ [LF]);
       Print (ESC :: lit "[1;32m");
       Print (LF :: cstr (payload ++ [NUL]) ++ [LF]);
       Print (ESC :: lit "[0m")])).
Proof.
  intros (Hb & Hfree & Hexit & Hlen) Hacc Hann Hin.
  rewrite shell_turn_command by assumption.
  rewrite send_command_whole by exact Hacc.
  erewrite await_reply_whole; [|exact Hann | exact Hin].
  unfold command_frame. cbn [trace with_trace]. tidy. reflexivity.
Qed.

Lemma command_round_trip_ls :
  shell_turn lab (Line (lit "ls" ++ [LF]))
    (serving lab_parent [Data (lit "o00003a.c"); Data (lit "next")]) =
  (Ret tt,
   with_trace (serving lab_parent [Data (lit "next")])
     (prompt ++
      [Sent (lit "c00002ls");
       Print (lit "Command sent to server: c00002ls. Waiting for response...." ++ [LF]);
       Print (ESC :: lit "[1;32m");
       Print (LF :: lit "a.c" ++ [LF]);
       Print (ESC :: lit "[0m")])).
Proof.
  apply (command_round_trip lab (lit "ls") (lit "o00003") (lit "a.c")
           [Data (lit "next")]
           (serving lab_parent [Data (lit "o00003a.c"); Data (lit "next")])).
  - repeat split; try discriminate; try lia. repeat constructor; discriminate.
  - reflexivity.
  - repeat split.
  - reflexivity.
Defined.

(** X10. The last byte of a line is overwritten whatever it is.  A line
    of two bytes or more that ends the input without a newline is handled
    as the line one byte shorter followed by a newline.  A line of one byte
    that is not a newline is not skipped as the empty line is: its byte is
    overwritten and the empty command goes out, under the header c00000. *)
Theorem last_byte_of_line_is_dropped (o : os) (body : list byte) (x : byte)
    (p : proc) :
  (body <> [] ->
   shell_turn o (Line (body ++ [x])) p =
   shell_turn o (Line (body ++ [LF])) p) /\
  (x <> LF ->
   shell_turn o (Line [x]) p =
   send_command o (child_pid p) (lit "c00000")
     (with_trace p (trace p ++ prompt))) /\
  shell_turn o (Line [LF]) p = (Ret tt, with_trace p (trace p ++ prompt)).
Proof.
  split; [|split].
  - intros Hb. rewrite !shell_turn_halves. cbv zeta.
    rewrite !line_is_taken, !line_buffer_poked, !line_length_snoc
      by assumption.
    reflexivity.
  - intros Hx. rewrite shell_turn_halves.
    unfold cyan, reset, printf. rewrite !bind_emit. cbv zeta.
    cbn [line_length line_buffer length app nth].
    destruct (Ascii.eqb_spec x LF) as [|_]; [contradiction|].
    cbn. unfold prompt. now tidy.
  - rewrite shell_turn_halves.
    unfold cyan, reset, printf. rewrite !bind_emit.
    cbn. unfold prompt, ret. now tidy.
Qed.

Lemma last_byte_of_line_is_dropped_ls :
  shell_turn lab (Line (lit "ls")) lab_parent =
  shell_turn lab (Line (lit "l" ++ [LF])) lab_parent /\
  shell_turn lab (Line (lit "x")) lab_parent =
  send_command lab (child_pid lab_parent) (lit "c00000")
    (with_trace lab_parent (trace lab_parent ++ prompt)).
Proof.
  split.
  - apply (last_byte_of_line_is_dropped lab (lit "l") "s" lab_parent).
    discriminate.
  - apply (last_byte_of_line_is_dropped lab [] "x" lab_parent).
    discriminate.
Defined.

(** X11. A reply whose header carries another tag than o ends the shell:
    it complains, signals the child and exits with status 1, and what came
    after the six bytes of the header is left unread. *)
Theorem wrong_reply_tag_is_fatal (o : os) (body hdr rest : list byte)
    (later : list arrival) (p : proc) :
  sendable body ->
  accepts (conn p) = [] ->
  length hdr = 6%nat -> header_tag hdr <> "o"%char ->
  inbound (conn p) = pieces (hdr ++ rest) later ->
  shell_turn o (Line (body ++ [LF])) p =
  (Exit 1,
   with_trace (with_inbound p (pieces rest later))
     (trace p ++ prompt ++
      [Sent (command_frame body);
       Print (lit "Command sent to server: " ++ command_frame body ++
              lit ". Waiting for response...." ++ [LF]);
       Print (LF :: lit "tPossible application or network error detected. Exiting application." ++ [LF]);
       Kill (child_pid p)])).
Proof.
  intros (Hb & Hfree & Hexit & Hlen) Hacc Hl Ht Hin.
  rewrite shell_turn_command by assumption.
  rewrite send_command_whole by exact Hacc.
  erewrite await_reply_wrong_tag; [|exact Hl | exact Ht | exact Hin].
  unfold command_frame. cbn [trace with_trace]. tidy. reflexivity.
Qed.

Lemma wrong_reply_tag_is_fatal_ls :
  shell_turn lab (Line (lit "ls" ++ [LF]))
    (serving lab_parent [Data (lit "c00003a.c")]) =
  (Exit 1,
   with_trace (serving lab_parent [Data (lit "a.c")])
     (prompt ++
      [Sent (lit "c00002ls");
       Print (lit "Command sent to server: c00002ls. Waiting for response...." ++ [LF]);
       Print (LF :: lit "tPossible application or network error detected. Exiting application." ++ [LF]);
       Kill 101])).
Proof.
  apply (wrong_reply_tag_is_fatal lab (lit "ls") (lit "c00003") (lit "a.c") []
           (serving lab_parent [Data (lit "c00003a.c")])).
  - repeat split; try discriminate; try lia. repeat constructor; discriminate.
  - reflexivity.
  - reflexivity.
  - discriminate.
  - reflexivity.
Defined.

(** X12. When the read of the reply header fails, the shell reports it,
    signals the child and exits with status 1; the command has gone out by
    then. *)
Theorem failed_reply_read_is_fatal (o : os) (body : list byte)
    (later : list arrival) (p : proc) :
  sendable body ->
  accepts (conn p) = [] ->
  inbound (conn p) = ReadFailure :: later ->
  shell_turn o (Line (body ++ [LF])) p =
  (Exit 1,
   with_trace (with_inbound p later)
     (trace p ++ prompt ++
      [Sent (command_frame body);
       Print (lit "Command sent to server: " ++ command_frame body ++
              lit ". Waiting for response...." ++ [LF]);
       Perror (lit "read");
       Kill (child_pid p)])).
Proof.
  intros (Hb & Hfree & Hexit & Hlen) Hacc Hin.
  rewrite shell_turn_command by assumption.
  rewrite send_command_whole by exact Hacc.
  erewrite await_reply_read_failure; [|exact Hin].
  unfold command_frame. cbn [trace with_trace]. tidy. reflexivity.
Qed.

Lemma failed_reply_read_is_fatal_ls :
  shell_turn lab (Line (lit "ls" ++ [LF]))
    (serving lab_parent [ReadFailure; Data (lit "o00003a.c")]) =
  (Exit 1,
   with_trace (serving lab_parent [Data (lit "o00003a.c")])
     (prompt ++
      [Sent (lit "c00002ls");
       Print (lit "Command sent to server: c00002ls. Waiting for response...." ++ [LF]);
       Perror (lit "read");
       Kill 101])).
Proof.
  apply (failed_reply_read_is_fatal lab (lit "ls") [Data (lit "o00003a.c")]
           (serving lab_parent [ReadFailure; Data (lit "o00003a.c")])).
  - repeat split; try discriminate; try lia. repeat constructor; discriminate.
  - reflexivity.
  - reflexivity.
Defined.

(** X13. When the connection takes only a part of the command frame, that
    part stays sent and is not completed: the shell complains, signals the
    child and exits with status 1 without reading anything. *)
Theorem short_command_write_is_fatal (o : os) (body : list byte) (k : nat)
    (more : list write_result) (p : proc) :
  sendable body ->
  accepts (conn p) = Takes k :: more ->
  (k < 6 + length body)%nat ->
  shell_turn o (Line (body ++ [LF])) p =
  (Exit 1,
   with_trace (with_accepts p more)
     (trace p ++ prompt ++
      [Sent (firstn k (command_frame body));
       Print (LF :: lit "Unable to send the complete command to server. Possible network error. Exiting application." ++ [LF]);
       Kill (child_pid p)])).
Proof.
  intros (Hb & Hfree & Hexit & Hlen) Hacc Hk.
  rewrite shell_turn_command by assumption.
  erewrite send_command_short; [|exact Hacc|].
  - unfold command_frame. cbn [trace with_trace]. tidy. reflexivity.
  - rewrite length_app, (header_str_length (lit "c")) by lia.
    cbn [cstr lit length]. cbn. lia.
Qed.

Lemma short_command_write_is_fatal_ls :
  shell_turn lab (Line (lit "ls" ++ [LF]))
    (with_conn lab_parent (mkSocket [Data (lit "o00003a.c")] [Takes 3])) =
  (Exit 1,
   with_trace (with_conn lab_parent (mkSocket [Data (lit "o00003a.c")] []))
     (prompt ++
      [Sent (lit "c00");
       Print (LF :: lit "Unable to send the complete command to server. Possible network error. Exiting application." ++ [LF]);
       Kill 101])).
Proof.
  apply (short_command_write_is_fatal lab (lit "ls") 3 []
           (with_conn lab_parent (mkSocket [Data (lit "o00003a.c")] [Takes 3]))).
  - repeat split; try discriminate; try lia. repeat constructor; discriminate.
  - reflexivity.
  - simpl. lia.
Defined.

(** X14. A write of the command that fails sends nothing, and ends the
    shell in one of two ways.  When it returns -1 the shell reports it,
    signals the child and exits with status 1 without reading anything.
    When the server is gone the write raises SIGPIPE, which the program
    neither ignores nor handles: the shell is killed in the write, with no
    report, no signal to the child and no exit of its own. *)
Theorem failed_command_write_ends_the_shell (o : os) (body : list byte)
    (arrivals : list arrival) (more : list write_result) (p : proc) :
  sendable body ->
  shell_turn o (Line (body ++ [LF]))
    (with_conn p (mkSocket arrivals (WriteFailure :: more))) =
  (Exit 1,
   with_trace (with_conn p (mkSocket arrivals more))
     (trace p ++ prompt ++
      [Perror (lit "write");
       Print (lit "Exiting application." ++ [LF]);
       Kill (child_pid p)])) /\
  shell_turn o (Line (body ++ [LF]))
    (with_conn p (mkSocket arrivals (BrokenPipe :: more))) =
  (Killed, with_trace (with_conn p (mkSocket arrivals more)) (trace p ++ prompt)).
Proof.
  intros (Hb & Hfree & Hexit & Hlen). split.
  - rewrite shell_turn_command by assumption.
    erewrite send_command_failed; [|reflexivity].
    cbn [trace with_trace with_conn child_pid]. tidy. reflexivity.
  - rewrite shell_turn_command by assumption.
    erewrite send_command_broken; reflexivity.
Qed.

Lemma failed_command_write_ends_the_shell_ls :
  shell_turn lab (Line (lit "ls" ++ [LF]))
    (with_conn lab_parent (mkSocket [Data (lit "o00003a.c")] [WriteFailure])) =
  (Exit 1,
   with_trace (with_conn lab_parent (mkSocket [Data (lit "o00003a.c")] []))
     (prompt ++
      [Perror (lit "write");
       Print (lit "Exiting application." ++ [LF]);
       Kill 101])) /\
  shell_turn lab (Line (lit "ls" ++ [LF]))
    (with_conn lab_parent (mkSocket [Data (lit "o00003a.c")] [BrokenPipe])) =
  (Killed,
   with_trace (with_conn lab_parent (mkSocket [Data (lit "o00003a.c")] []))
     prompt).
Proof.
  apply (failed_command_write_ends_the_shell lab (lit "ls")
           [Data (lit "o00003a.c")] [] lab_parent).
  repeat split; try discriminate; try lia. repeat constructor; discriminate.
Defined.

(** ** Requests and replies that go wrong *)

(** X15. What becomes of a result of at most 99999 bytes, by what the
    connection does with the write.  Taken whole, it is one frame and the
    child goes on.  When the write returns -1 nothing is sent, when it
    takes a part the part stays sent, and in both these cases the child
    complains, signals the parent and exits with status 1.  When the
    server is gone the write raises SIGPIPE, which the program neither
    ignores nor handles: the child is killed in the write, with nothing
    sent, no complaint, no signal to the parent and no exit of its own. *)
Theorem reply_write_outcomes (block : list byte) (q : proc) :
  Z.of_nat (strlen block) <= 99999 ->
  let msg := header_str (lit "o") (Z.of_nat (strlen block)) ++ cstr block in
  send_output (Some block) q =
  match accepts (conn q) with
  | [] => (Ret tt, with_trace q (trace q ++ [Sent msg]))
  | WriteFailure :: more =>
      (Exit 1,
       with_trace (with_accepts q more)
         (trace q ++ [Perror (lit "write");
                      Print (lit "Exiting application." ++ [LF]);
                      Kill (ppid q)]))
  | Takes k :: more =>
      if (k <? length msg)%nat then
        (Exit 1,
         with_trace (with_accepts q more)
           (trace q ++
            [Sent (firstn k msg);
             Print (LF :: lit "Unable to send the complete output to server. Possible network error. Exiting application." ++ [LF]);
             Kill (ppid q)]))
      else (Ret tt, with_trace (with_accepts q more) (trace q ++ [Sent msg]))
  | BrokenPipe :: more => (Killed, with_accepts q more)
  end.
Proof.
  intros Hlen msg.
  destruct (accepts (conn q)) as [|[|k|] more] eqn:Hacc.
  - now apply send_output_frame.
  - unfold send_output.
    assert (Hs : 0 <= Z.of_nat (strlen block) <= 99999) by lia.
    rewrite to_int_small by (unfold INT_MAX; lia).
    rewrite (bind_returns _ _ _ _ _ (get_header_str_small _ _ q Hs)).
    rewrite (bind_returns _ _ _ _ _ (write_fails _ more q Hacc)).
    change (-1 <? 0) with true. cbv iota.
    unfold perror, printf. rewrite !bind_emit, abandon_exits.
    cbn [trace ppid with_accepts with_conn with_trace]. now tidy.
  - unfold send_output.
    assert (Hs : 0 <= Z.of_nat (strlen block) <= 99999) by lia.
    rewrite to_int_small by (unfold INT_MAX; lia).
    rewrite (bind_returns _ _ _ _ _ (get_header_str_small _ _ q Hs)).
    unfold message.
    rewrite (cstr_of_nul_free (header_str (lit "o") _))
      by (apply (header_str_nul_free "o"); [right; left; reflexivity | exact Hs]).
    fold msg.
    rewrite (bind_returns _ _ _ _ _ (write_takes msg k more q Hacc)).
    rewrite length_firstn.
    destruct (Z.ltb_spec (Z.of_nat (Nat.min k (length msg))) 0); [lia|].
    destruct (Nat.ltb_spec k (length msg)).
    + destruct (Z.ltb_spec (Z.of_nat (Nat.min k (length msg)))
                  (Z.of_nat (length msg))); [|lia].
      unfold printf. rewrite bind_emit, abandon_exits.
      cbn [trace ppid with_accepts with_conn with_trace]. now tidy.
    + destruct (Z.ltb_spec (Z.of_nat (Nat.min k (length msg)))
                  (Z.of_nat (length msg))); [lia|].
      now rewrite firstn_all2 by lia.
  - unfold send_output.
    assert (Hs : 0 <= Z.of_nat (strlen block) <= 99999) by lia.
    rewrite to_int_small by (unfold INT_MAX; lia).
    rewrite (bind_returns _ _ _ _ _ (get_header_str_small _ _ q Hs)).
    unfold bind. now rewrite (write_breaks _ more q Hacc).
Qed.

Lemma reply_write_outcomes_lab :
  send_output (Some (lit "hello" ++ [NUL]))
    (with_conn lab_child (mkSocket [] [Takes 8])) =
  (Exit 1,
   with_trace lab_child
     [Sent (lit "o00005he");
      Print (LF :: lit "Unable to send the complete output to server. Possible network error. Exiting application." ++ [LF]);
      Kill 100]) /\
  send_output (Some (lit "hello" ++ [NUL]))
    (with_conn lab_child (mkSocket [] [BrokenPipe])) =
  (Killed, lab_child).
Proof.
  split.
  - apply (reply_write_outcomes (lit "hello" ++ [NUL])
             (with_conn lab_child (mkSocket [] [Takes 8]))).
    vm_compute. discriminate.
  - apply (reply_write_outcomes (lit "hello" ++ [NUL])
             (with_conn lab_child (mkSocket [] [BrokenPipe]))).
    vm_compute. discriminate.
Defined.

(** X16. An input header with another tag than i ends the turn as soon as
    the two headers are read: no body is read, the engine is not called,
    nothing is sent; the child complains, signals the parent and exits with
    status 1.  The tag of the command header has not been looked at by
    then. *)
Theorem wrong_input_tag_is_fatal (o : os) (serv_sock : socket)
    (cmd_hdr inp_hdr rest : list byte) (later : list arrival) (p : proc) :
  length cmd_hdr = 6%nat -> length inp_hdr = 6%nat ->
  header_tag inp_hdr <> "i"%char ->
  inbound serv_sock = pieces (cmd_hdr ++ inp_hdr ++ rest) later ->
  request_turn o serv_sock p =
  (Exit 1,
   with_trace (with_conn p (mkSocket (pieces rest later) (accepts serv_sock)))
     (trace p ++
      [Print (LF :: lit "Possible application or network error detected. Exiting application." ++ [LF]);
       Kill (ppid p)])).
Proof.
  intros Hcl Hil Hit Hin. rewrite request_turn_starts.
  apply bind_exits.
  now rewrite (receive_request_wrong_input_tag o cmd_hdr inp_hdr rest later).
Qed.

Lemma wrong_input_tag_is_fatal_lab :
  request_turn lab (mkSocket [Data (lit "c00003o00002hicat")] []) lab_child =
  (Exit 1,
   with_trace (serving lab_child [Data (lit "hicat")])
     [Print (LF :: lit "Possible application or network error detected. Exiting application." ++ [LF]);
      Kill 100]).
Proof.
  apply (wrong_input_tag_is_fatal lab
           (mkSocket [Data (lit "c00003o00002hicat")] [])
           (lit "c00003") (lit "o00002") (lit "hicat") [] lab_child).
  - reflexivity.
  - reflexivity.
  - discriminate.
  - reflexivity.
Defined.

(** X17. A command header with another tag than c is found out only after
    the input was read: the input body is consumed, the command body is
    not, the engine is not called and nothing is sent; the child complains,
    signals the parent and exits with status 1. *)
Theorem wrong_command_tag_is_fatal (o : os) (serv_sock : socket)
    (cmd_hdr inp_hdr inp rest : list byte) (later : list arrival) (p : proc) :
  length cmd_hdr = 6%nat -> header_tag cmd_hdr <> "c"%char ->
  announces "i" (length inp) inp_hdr ->
  inbound serv_sock = pieces (cmd_hdr ++ inp_hdr ++ inp ++ rest) later ->
  request_turn o serv_sock p =
  (Exit 1,
   with_trace (with_conn p (mkSocket (pieces rest later) (accepts serv_sock)))
     (trace p ++
      [Print (LF :: lit "Possible application or network error detected. Exiting application." ++ [LF]);
       Kill (ppid p)])).
Proof.
  intros Hcl Hct Hann Hin. rewrite request_turn_starts.
  apply bind_exits.
  now rewrite (receive_request_wrong_command_tag o cmd_hdr inp_hdr inp rest
                 later).
Qed.

Lemma wrong_command_tag_is_fatal_lab :
  request_turn lab (mkSocket [Data (lit "x00003i00002hicat")] []) lab_child =
  (Exit 1,
   with_trace (serving lab_child [Data (lit "cat")])
     [Print (LF :: lit "Possible application or network error detected. Exiting application." ++ [LF]);
      Kill 100]).
Proof.
  apply (wrong_command_tag_is_fatal lab
           (mkSocket [Data (lit "x00003i00002hicat")] [])
           (lit "x00003") (lit "i00002") (lit "hi") (lit "cat") [] lab_child).
  - reflexivity.
  - discriminate.
  - repeat split.
  - reflexivity.
Defined.

(** X18. When the read of either header fails, the turn ends there: the
    child reports it, signals the parent and exits with status 1, without
    calling the engine or sending anything; a command header that was read
    before is not examined. *)
Theorem failed_header_read_is_fatal (o : os) (serv_sock : socket)
    (later : list arrival) (p : proc) :
  inbound serv_sock = ReadFailure :: later \/
  (exists cmd_hdr,
     length cmd_hdr = 6%nat /\
     inbound serv_sock = Data cmd_hdr :: ReadFailure :: later) ->
  request_turn o serv_sock p =
  (Exit 1,
   with_trace (with_conn p (mkSocket later (accepts serv_sock)))
     (trace p ++ [Perror (lit "read"); Kill (ppid p)])).
Proof.
  intros Hin. rewrite request_turn_starts. apply bind_exits.
  destruct Hin as [Hin | (cmd_hdr & Hl & Hin)].
  - now rewrite (receive_request_first_read_fails o later).
  - now rewrite (receive_request_second_read_fails o cmd_hdr later).
Qed.

Lemma failed_header_read_is_fatal_lab :
  request_turn lab (mkSocket [Data (lit "zzzzzz"); ReadFailure] []) lab_child =
  (Exit 1,
   with_trace (serving lab_child []) [Perror (lit "read"); Kill 100]).
Proof.
  apply (failed_header_read_is_fatal lab
           (mkSocket [Data (lit "zzzzzz"); ReadFailure] []) [] lab_child).
  right. exists (lit "zzzzzz"). split; reflexivity.
Defined.

(** ** The engine *)

(** X19. A [cd] that succeeds changes the directory of the process and
    nothing else, and returns the empty string; the next command is then
    run in the new directory: what the engine returns for it is what the
    subprocess prints there. *)
Theorem cd_moves_the_next_command (o : os)
    (input command there text command' out : list byte) (p : proc) :
  is_cd command = true ->
  chdir_to o (cwd p) (cstr (skipn 3 command)) = Some there ->
  is_cd command' = false ->
  nul_free text ->
  Z.of_nat (length text) <= pipe_capacity o ->
  spawn o there (cstr command') text = Some out ->
  (forall n, grants o n = true) ->
  out <> [] -> nul_free out -> Z.of_nat (length out) < INT_MAX ->
  execute_on_current_node o input command p =
  (Ret (Some [NUL]), with_cwd p there) /\
  exists reads,
    (execute_on_current_node o input command ;;
     execute_on_current_node o (text ++ [NUL]) command') p =
    (Ret (Some (out ++ [NUL])),
     with_trace (with_cwd p there)
       (trace p ++
        [PipeWrite text; PipeCloseWrite; Dup2Stdin; Popen (cstr command')] ++
        map Fgets reads ++ [PipeCloseRead; Pclose])) /\
    concat reads = out.
Proof.
  intros Hcd Hdir Hcd' Htext Hfit Hspawn Hgrants Hout Hfree Hmax.
  assert (E : execute_on_current_node o input command p =
              (Ret (Some [NUL]), with_cwd p there)).
  { unfold execute_on_current_node. rewrite Hcd. unfold change_directory.
    now rewrite bind_getcwd, Hdir, cd_block. }
  split; [exact E|].
  rewrite (bind_returns _ _ _ _ _ E).
  unfold execute_on_current_node. rewrite Hcd'.
  destruct (run_subprocess_gathers o text command' out (with_cwd p there))
    as (reads & R & Hcat); try assumption.
  exists reads. split; [exact R | exact Hcat].
Qed.

Lemma cd_moves_the_next_command_lab :
  execute_on_current_node lab [NUL] (lit "cd /tmp" ++ [NUL]) lab_child =
  (Ret (Some [NUL]), with_cwd lab_child (lit "/tmp")) /\
  exists reads,
    (execute_on_current_node lab [NUL] (lit "cd /tmp" ++ [NUL]) ;;
     execute_on_current_node lab ([] ++ [NUL]) (lit "pwd" ++ [NUL])) lab_child =
    (Ret (Some ((lit "/tmp" ++ [LF]) ++ [NUL])),
     with_trace (with_cwd lab_child (lit "/tmp"))
       (trace lab_child ++
        [PipeWrite []; PipeCloseWrite; Dup2Stdin;
         Popen (cstr (lit "pwd" ++ [NUL]))] ++
        map Fgets reads ++ [PipeCloseRead; Pclose])) /\
    concat reads = lit "/tmp" ++ [LF].
Proof.
  apply (cd_moves_the_next_command lab [NUL] (lit "cd /tmp" ++ [NUL])
           (lit "/tmp") [] (lit "pwd" ++ [NUL]) (lit "/tmp" ++ [LF])
           lab_child).
  - reflexivity.
  - reflexivity.
  - reflexivity.
  - constructor.
  - vm_compute. discriminate.
  - reflexivity.
  - reflexivity.
  - discriminate.
  - repeat constructor; discriminate.
  - vm_compute. reflexivity.
Defined.

(** X20. When [popen] cannot start the command, the input has gone into
    the pipe already; the child reports the failure, signals the parent and
    exits with status 1. *)
Theorem popen_failure_is_fatal (o : os) (input command : list byte)
    (p : proc) :
  is_cd command = false ->
  Z.of_nat (strlen input) <= pipe_capacity o ->
  spawn o (cwd p) (cstr command) (cstr input) = None ->
  execute_on_current_node o input command p =
  (Exit 1,
   with_trace p
     (trace p ++
      [PipeWrite (cstr input); PipeCloseWrite; Dup2Stdin; Popen (cstr command);
       Perror (lit "popen"); Kill (ppid p)])).
Proof.
  intros Hcd Hfit Hspawn. unfold execute_on_current_node. rewrite Hcd.
  rewrite run_subprocess_fits by assumption. rewrite Hspawn.
  unfold perror, kill, exit, launched.
  rewrite bind_emit, bind_getppid, bind_emit.
  cbn [ppid with_trace]. now tidy.
Qed.

Lemma popen_failure_is_fatal_example :
  let o := mkOs (fun _ _ => None) (fun _ _ _ => None) 65536
                (fun _ => true) (fun _ => "#"%char) in
  execute_on_current_node o (lit "hi" ++ [NUL]) (lit "ls" ++ [NUL]) lab_child =
  (Exit 1,
   with_trace lab_child
     [PipeWrite (lit "hi"); PipeCloseWrite; Dup2Stdin; Popen (lit "ls");
      Perror (lit "popen"); Kill 100]).
Proof.
  intros o.
  apply (popen_failure_is_fatal o (lit "hi" ++ [NUL]) (lit "ls" ++ [NUL])
           lab_child).
  - reflexivity.
  - vm_compute. discriminate.
  - reflexivity.
Defined.



(** X22. Whatever the input, the command and the operating system do, the
    engine leaves the connection as it is and puts nothing on it, and only
    a [cd] that succeeds changes the working directory. *)
Theorem engine_stays_off_the_connection (o : os) (input command : list byte)
    (p : proc) :
  let q := snd (execute_on_current_node o input command p) in
  conn q = conn p /\
  (exists events, trace q = trace p ++ events /\ Forall unsent events) /\
  cwd q =
  if is_cd command then
    match chdir_to o (cwd p) (cstr (skipn 3 command)) with
    | Some there => there
    | None => cwd p
    end
  else cwd p.
Proof.
  unfold execute_on_current_node. destruct (is_cd command).
  - unfold change_directory. rewrite bind_getcwd.
    destruct (chdir_to o (cwd p) (cstr (skipn 3 command))) as [there|].
    + cbn. repeat split. exists []. now rewrite app_nil_r.
    + unfold perror, printf. rewrite bind_assoc, !bind_emit. unfold ret.
      cbn [snd]. tidy. repeat split.
      eexists. split; [reflexivity | repeat constructor].
  - destruct (run_subprocess_unsent o input command p)
      as (out & events & -> & Hu).
    cbn [snd]. repeat split. now exists events.
Qed.



(** ** Lengths beyond an [int] *)

Section Wrapped.

Lemma firstn_2_repeat (x : byte) (n : nat) :
  (2 <= n)%nat -> firstn 2 (repeat x n) = [x; x].
Proof. destruct n as [|[|n]]; [lia | lia | reflexivity]. Qed.

Lemma repeat_nul_free (x : byte) (n : nat) : x <> NUL -> nul_free (repeat x n).
Proof. intros Hx. induction n; constructor; assumption. Qed.

(** A line of 2^32 + 5 bytes before its newline reaches [get_header_str]
    as 5. *)
Lemma shell_turn_wrapped (o : os) (n : nat) (p : proc) :
  Z.of_nat n = 2 ^ 32 + 5 ->
  let body := repeat "a"%char n in
  let q := with_conn p (mkSocket (inbound (conn p)) [Takes 8]) in
  100000 <= Z.of_nat (length body) /\
  get_header_str (lit "c") (to_int (Z.of_nat (length body))) q =
  (Ret (lit "c00005"), q) /\
  shell_turn o (Line (body ++ [LF])) q =
  (Exit 1,
   with_trace (with_conn p (mkSocket (inbound (conn p)) []))
     (trace p ++ prompt ++
      [Sent (lit "c00005aa");
       Print (LF :: lit "Unable to send the complete command to server. Possible network error. Exiting application." ++ [LF]);
       Kill (child_pid p)])).
Proof.
  intros Hn body q.
  assert (Hlen : Z.of_nat (length body) = 2 ^ 32 + 5)
    by (unfold body; now rewrite repeat_length).
  assert (Hint : to_int (Z.of_nat (length body)) = 5)
    by (rewrite Hlen; reflexivity).
  assert (Hfree : nul_free body) by (apply repeat_nul_free; discriminate).
  assert (Hb : body <> [])
    by (intros E; rewrite E in Hlen; discriminate Hlen).
  assert (Hexit : body <> lit "exit").
  { intros E. rewrite E in Hlen. discriminate Hlen. }
  split; [rewrite Hlen; lia|]. rewrite Hint.
  split; [reflexivity|].
  rewrite shell_turn_command_int by (rewrite ?Hint; try assumption; lia).
  rewrite Hint.
  erewrite send_command_short; [|reflexivity|].
  - change (header_str (lit "c") 5) with (lit "c00005").
    change (firstn 8 (lit "c00005" ++ body))
      with (lit "c00005" ++ firstn 2 body).
    unfold body at 1. rewrite firstn_2_repeat by lia.
    cbn [trace with_trace with_conn with_accepts child_pid inbound conn].
    tidy. reflexivity.
  - rewrite length_app. lia.
Qed.

End Wrapped.

(** C4 as it was stated, on a line of 2^32 + 5 bytes before its newline.
    The payload has more than 100000 bytes, but its length reaches
    [get_header_str] as the [int] 5: the header [c00005] is made, and the
    frame is written, of which the connection takes eight bytes here. *)
Lemma wrapped_length_is_framed :
  let body := repeat "a"%char (Z.to_nat (2 ^ 32 + 5)) in
  let q := with_conn lab_parent (mkSocket [] [Takes 8]) in
  100000 <= Z.of_nat (length body) /\
  get_header_str (lit "c") (to_int (Z.of_nat (length body))) q =
  (Ret (lit "c00005"), q) /\
  shell_turn lab (Line (body ++ [LF])) q =
  (Exit 1,
   with_trace lab_parent
     (prompt ++
      [Sent (lit "c00005aa");
       Print (LF :: lit "Unable to send the complete command to server. Possible network error. Exiting application." ++ [LF]);
       Kill 101])).
Proof.
  exact (shell_turn_wrapped lab (Z.to_nat (2 ^ 32 + 5)) lab_parent
           (Z2Nat.id (2 ^ 32 + 5) (Z.lt_le_incl 0 (2 ^ 32 + 5) eq_refl))).
Qed.
